(** * MonitoRSS backend-api: ScheduleHandlerService

    A shallow embedding of the backend-api's [ScheduleHandlerService]
    (refresh-rate synchronisation, fetch and delivery dispatch, and the
    three outcome-event subscribers), together with the properties the
    design document states about it.

    Conventions of the embedding.
    - The [UserFeed] collection is an ordered list of documents; bulk
      updates map over it, single updates rewrite the first match.
    - An [async] method is a computation in the monad [M]: it threads the
      [World] (collection, bus, log, clock) and either returns or throws.
      Every [await] is run to completion before the next statement.
    - JavaScript numbers that hold seconds, milliseconds and counts are
      integers ([Z]); objects handed to the message bus are [JSValue]s.
    - An [ObjectId] is represented by its 24-digit hex string, so
      [toHexString] is the identity. *)

From stdpp Require Import base option list strings gmap pretty.
From Stdlib Require Import ZArith Lia.

Set Warnings "-register-all".

Set Default Proof Using "Type".

(** ** JavaScript values *)

Inductive JSValue : Type :=
| JUndefined
| JNull
| JBool (b : bool)
| JNum (n : Z)
| JStr (s : string)
| JArr (items : list JSValue)
| JObj (fields : list (string * JSValue)).

(** [ToBoolean] of the language: the falsy values are [undefined], [null],
    [false], [0] and the empty string. *)
Definition truthy (v : JSValue) : bool :=
  match v with
  | JUndefined | JNull => false
  | JBool b => b
  | JNum n => negb (n =? 0)%Z
  | JStr s => negb (String.eqb s "")
  | JArr _ | JObj _ => true
  end.

(** [a || b] on numbers, where [a] may be [undefined] (a failed [Map.get]). *)
Definition num_or (a : option Z) (b : Z) : Z :=
  match a with
  | Some n => if truthy (JNum n) then n else b
  | None => b
  end.

(** [a || b] on values. *)
Definition js_or (a b : JSValue) : JSValue := if truthy a then a else b.

Fixpoint lookup_field (k : string) (fields : list (string * JSValue)) : JSValue :=
  match fields with
  | [] => JUndefined
  | (k', v) :: rest => if String.eqb k' k then v else lookup_field k rest
  end.

(** [o?.k]: [undefined] when [o] is [undefined] or [null], the property
    otherwise (a missing property reads as [undefined]). *)
Definition js_opt_get (o : JSValue) (k : string) : JSValue :=
  match o with
  | JObj fields => lookup_field k fields
  | _ => JUndefined
  end.

(** ** Collaborators that are imported by the service

    The enums of [../user-feeds/types], [./constants], the two reject-code
    tables of [./utils], the two casts of [../../common/utils], the queue
    names and the two configuration numbers are declared outside the
    service; the service is parametric in them.  A table that throws on an
    unknown code is a partial function. *)

Inductive MessageBrokerQueue : Type :=
| UrlFailedDisableFeeds
| FeedRejectedDisableFeed
| FeedRejectedArticleDisableConnection
| UrlFetch
| UrlFetchBatch
| FeedDeliverArticles.

Class Collaborators : Type := {
  UserFeedDisabledCode : Type;
  FailedRequests : UserFeedDisabledCode;
  UserFeedHealthStatus : Type;
  Failed : UserFeedHealthStatus;
  FeedConnectionDisabledCode : Type;
  FeedRejectCode : Type;
  ArticleRejectCode : Type;
  getUserFeedDisableCodeByFeedRejectCode :
    FeedRejectCode -> option UserFeedDisabledCode;
  getConnectionDisableCodeByArticleRejectCode :
    ArticleRejectCode -> option FeedConnectionDisabledCode;
  castDiscordContentForMedium : JSValue -> JSValue;
  castDiscordEmbedsForMedium : JSValue -> JSValue;
  queueName : MessageBrokerQueue -> string;
  BACKEND_API_DEFAULT_REFRESH_RATE_MINUTES : Z;
  maxDailyArticlesDefault : Z
}.

Section ScheduleHandler.
Context `{Collaborators}.

(** ** Data model *)

Definition ObjectId : Type := string.
Definition toHexString (i : ObjectId) : string := i.

Record Benefit : Type := {
  b_discordUserId : string;
  b_refreshRateSeconds : Z;
  b_maxDailyArticles : Z;
  b_maxUserFeeds : Z;
  b_isSupporter : bool
}.

Record ChannelTarget : Type := {
  channel_id : string;
  channel_type : JSValue;
  channel_guildId : string
}.

Record WebhookTarget : Type := {
  webhook_id : string;
  webhook_token : string;
  webhook_name : JSValue;
  webhook_iconUrl : JSValue;
  webhook_guildId : string
}.

(** [details] of a connection; [target] is its [channel] or its [webhook].
    Sub-documents the service only copies or reads through [?.] stay
    [JSValue]s. *)
Record Details (T : Type) : Type := {
  target : T;
  content : JSValue;
  embeds : JSValue;
  forumThreadTitle : JSValue;
  forumThreadTags : JSValue;
  formatter : JSValue;
  placeholderLimits : JSValue;
  enablePlaceholderFallback : JSValue
}.
#[global] Arguments target {T} _.
#[global] Arguments content {T} _.
#[global] Arguments embeds {T} _.
#[global] Arguments forumThreadTitle {T} _.
#[global] Arguments forumThreadTags {T} _.
#[global] Arguments formatter {T} _.
#[global] Arguments placeholderLimits {T} _.
#[global] Arguments enablePlaceholderFallback {T} _.

Record Connection (T : Type) : Type := {
  con_id : ObjectId;
  con_disabledCode : option FeedConnectionDisabledCode;
  con_filters : JSValue;
  con_details : Details T;
  con_mentions : JSValue;
  con_splitOptions : JSValue
}.
#[global] Arguments con_id {T} _.
#[global] Arguments con_disabledCode {T} _.
#[global] Arguments con_filters {T} _.
#[global] Arguments con_details {T} _.
#[global] Arguments con_mentions {T} _.
#[global] Arguments con_splitOptions {T} _.

Definition DiscordChannelConnection : Type := Connection ChannelTarget.
Definition DiscordWebhookConnection : Type := Connection WebhookTarget.

Record Connections : Type := {
  discordChannels : list DiscordChannelConnection;
  discordWebhooks : list DiscordWebhookConnection
}.

Record UserFeedUser : Type := { discordUserId : string }.

Record UserFeed : Type := {
  _id : ObjectId;
  url : string;
  user : UserFeedUser;
  refreshRateSeconds : option Z;
  disabledCode : option UserFeedDisabledCode;
  healthStatus : UserFeedHealthStatus;
  connections : Connections;
  passingComparisons : JSValue;
  blockingComparisons : JSValue;
  formatOptions : JSValue;
  dateCheckOptions : JSValue
}.

(** ** The world an invocation runs in *)

Record Message : Type := {
  exchange : string;
  queue : MessageBrokerQueue;
  payload : JSValue;
  expiration : Z
}.

Inductive LogEntry : Type :=
| LogDebug (msg : string)
| LogWarn (msg : string).

(** What a store update reports back: how many documents its filter
    matched (each matched document is written). *)
Record UpdateResult : Type := { matchedCount : nat }.

(** One invocation of a callback handed to [handleRefreshRate].  The
    one-field objects [{url}] of a batch are represented by their urls. *)
Inductive HandlerCall : Type :=
| UrlsHandlerCall (data : list string)
| FeedHandlerCall (feed : UserFeed) (maxDailyArticles : Z).

(** [userFeedModel] is the collection, [benefitsOfAllDiscordUsers] what the
    supporters service resolves to, [amqpConnection] the messages published
    so far, [logger] the log and [Date_now] the clock.  The last two fields
    are observations, not state of the service: the result of every store
    update issued so far, and the calls received by the recording
    callbacks. *)
Record World : Type := {
  userFeedModel : list UserFeed;
  benefitsOfAllDiscordUsers : list Benefit;
  amqpConnection : list Message;
  logger : list LogEntry;
  Date_now : Z;
  storeWrites : list UpdateResult;
  handlerCalls : list HandlerCall
}.

Definition with_userFeedModel (docs : list UserFeed) (w : World) : World :=
  {| userFeedModel := docs;
     benefitsOfAllDiscordUsers := benefitsOfAllDiscordUsers w;
     amqpConnection := amqpConnection w;
     logger := logger w;
     Date_now := Date_now w;
     storeWrites := storeWrites w;
     handlerCalls := handlerCalls w |}.

Definition with_amqpConnection (ms : list Message) (w : World) : World :=
  {| userFeedModel := userFeedModel w;
     benefitsOfAllDiscordUsers := benefitsOfAllDiscordUsers w;
     amqpConnection := ms;
     logger := logger w;
     Date_now := Date_now w;
     storeWrites := storeWrites w;
     handlerCalls := handlerCalls w |}.

Definition with_logger (ls : list LogEntry) (w : World) : World :=
  {| userFeedModel := userFeedModel w;
     benefitsOfAllDiscordUsers := benefitsOfAllDiscordUsers w;
     amqpConnection := amqpConnection w;
     logger := ls;
     Date_now := Date_now w;
     storeWrites := storeWrites w;
     handlerCalls := handlerCalls w |}.

Definition with_storeWrites (rs : list UpdateResult) (w : World) : World :=
  {| userFeedModel := userFeedModel w;
     benefitsOfAllDiscordUsers := benefitsOfAllDiscordUsers w;
     amqpConnection := amqpConnection w;
     logger := logger w;
     Date_now := Date_now w;
     storeWrites := rs;
     handlerCalls := handlerCalls w |}.

Definition with_handlerCalls (cs : list HandlerCall) (w : World) : World :=
  {| userFeedModel := userFeedModel w;
     benefitsOfAllDiscordUsers := benefitsOfAllDiscordUsers w;
     amqpConnection := amqpConnection w;
     logger := logger w;
     Date_now := Date_now w;
     storeWrites := storeWrites w;
     handlerCalls := cs |}.

(** ** The monad of asynchronous methods *)

Inductive Completion (A : Type) : Type :=
| Returned (a : A)
| Thrown (reason : string).
#[global] Arguments Returned {A} _.
#[global] Arguments Thrown {A} _.

Definition M (A : Type) : Type := World -> Completion A * World.

Definition ret {A} (a : A) : M A := fun w => (Returned a, w).

Definition throw {A} (reason : string) : M A := fun w => (Thrown reason, w).

Definition bind {A B} (m : M A) (k : A -> M B) : M B :=
  fun w =>
    match m w with
    | (Returned a, w') => k a w'
    | (Thrown e, w') => (Thrown e, w')
    end.

Notation "'do' x <- m ; k" := (bind m (fun x => k))
  (at level 10, x name, m at level 100, k at level 200).
Notation "'run' m ; k" := (bind m (fun _ => k))
  (at level 10, m at level 100, k at level 200).

Definition exec {A} (m : M A) (w : World) : World := snd (m w).
Definition outcome {A} (m : M A) (w : World) : Completion A := fst (m w).

(** [for (const x of xs) { await body(x) }]. *)
Fixpoint for_of {A} (xs : list A) (body : A -> M unit) : M unit :=
  match xs with
  | [] => ret tt
  | x :: rest => run body x; for_of rest body
  end.

(** ** Primitive effects *)

Definition logger_debug (msg : string) : M unit :=
  fun w => (Returned tt, with_logger (logger w ++ [LogDebug msg]) w).

Definition logger_warn (msg : string) : M unit :=
  fun w => (Returned tt, with_logger (logger w ++ [LogWarn msg]) w).

Definition getBenefitsOfAllDiscordUsers : M (list Benefit) :=
  fun w => (Returned (benefitsOfAllDiscordUsers w), w).

Definition publish (q : MessageBrokerQueue) (body : JSValue) (exp : Z) : M unit :=
  fun w =>
    (Returned tt,
     with_amqpConnection
       (amqpConnection w ++
        [{| exchange := ""; queue := q; payload := body; expiration := exp |}])
       w).

Definition now : M Z := fun w => (Returned (Date_now w), w).

(** *** The store: [find], [findById], [updateMany], [updateOne] *)

Definition FilterQuery : Type := UserFeed -> bool.

Fixpoint updateFirst (q : FilterQuery) (set : UserFeed -> UserFeed)
    (docs : list UserFeed) : list UserFeed :=
  match docs with
  | [] => []
  | d :: rest => if q d then set d :: rest else d :: updateFirst q set rest
  end.

Definition updateAll (q : FilterQuery) (set : UserFeed -> UserFeed)
    (docs : list UserFeed) : list UserFeed :=
  map (fun d => if q d then set d else d) docs.

Definition count_matching (q : FilterQuery) (docs : list UserFeed) : nat :=
  length (List.filter q docs).

Definition updateMany (q : FilterQuery) (set : UserFeed -> UserFeed)
    : M UpdateResult :=
  fun w =>
    let r := {| matchedCount := count_matching q (userFeedModel w) |} in
    (Returned r,
     with_storeWrites (storeWrites w ++ [r])
       (with_userFeedModel (updateAll q set (userFeedModel w)) w)).

Definition updateOne (q : FilterQuery) (set : UserFeed -> UserFeed)
    : M UpdateResult :=
  fun w =>
    let r := {| matchedCount := Nat.min 1 (count_matching q (userFeedModel w)) |} in
    (Returned r,
     with_storeWrites (storeWrites w ++ [r])
       (with_userFeedModel (updateFirst q set (userFeedModel w)) w)).

(** [findById(feedId)].  The store compares identities as [ObjectId]s: it
    first casts [feedId], and on the canonical hex of an [ObjectId] (24
    digits, lower case; [isObjectIdHex] below) that comparison is the
    comparison of the hex strings, which is what the model computes.  A
    string that does not cast makes the query reject; the model does not
    cover such ids, and the properties that speak of an id no stored feed
    has assume a canonical one. *)
Definition findById (feedId : string) : M (option UserFeed) :=
  fun w =>
    (Returned (List.find (fun d => String.eqb (toHexString (_id d)) feedId)
                 (userFeedModel w)), w).

Definition find (q : FilterQuery) : M (list UserFeed) :=
  fun w => (Returned (List.filter q (userFeedModel w)), w).

(** Field setters used by [$set]. *)

Definition set_disabledCode (c : UserFeedDisabledCode) (d : UserFeed) : UserFeed :=
  {| _id := _id d; url := url d; user := user d;
     refreshRateSeconds := refreshRateSeconds d;
     disabledCode := Some c;
     healthStatus := healthStatus d;
     connections := connections d;
     passingComparisons := passingComparisons d;
     blockingComparisons := blockingComparisons d;
     formatOptions := formatOptions d;
     dateCheckOptions := dateCheckOptions d |}.

Definition set_healthStatus (h : UserFeedHealthStatus) (d : UserFeed) : UserFeed :=
  {| _id := _id d; url := url d; user := user d;
     refreshRateSeconds := refreshRateSeconds d;
     disabledCode := disabledCode d;
     healthStatus := h;
     connections := connections d;
     passingComparisons := passingComparisons d;
     blockingComparisons := blockingComparisons d;
     formatOptions := formatOptions d;
     dateCheckOptions := dateCheckOptions d |}.

Definition set_refreshRateSeconds (r : Z) (d : UserFeed) : UserFeed :=
  {| _id := _id d; url := url d; user := user d;
     refreshRateSeconds := Some r;
     disabledCode := disabledCode d;
     healthStatus := healthStatus d;
     connections := connections d;
     passingComparisons := passingComparisons d;
     blockingComparisons := blockingComparisons d;
     formatOptions := formatOptions d;
     dateCheckOptions := dateCheckOptions d |}.

Definition set_connections (c : Connections) (d : UserFeed) : UserFeed :=
  {| _id := _id d; url := url d; user := user d;
     refreshRateSeconds := refreshRateSeconds d;
     disabledCode := disabledCode d;
     healthStatus := healthStatus d;
     connections := c;
     passingComparisons := passingComparisons d;
     blockingComparisons := blockingComparisons d;
     formatOptions := formatOptions d;
     dateCheckOptions := dateCheckOptions d |}.

(** [{ $exists: false }] on an optional field. *)
Definition not_exists {A} (o : option A) : bool :=
  match o with None => true | Some _ => false end.

(** ** handleUrlRequestFailureEvent *)

Definition handleUrlRequestFailureEvent (u : string) : M unit :=
  run logger_debug ("handling url request failure event for url " +:+ u);
  run updateMany
       (fun d => String.eqb (url d) u && not_exists (disabledCode d))
       (fun d => set_healthStatus Failed (set_disabledCode FailedRequests d));
  ret tt.

(** ** handleFeedRejectedDisableFeed *)

Definition handleFeedRejectedDisableFeed
    (rejectedCode : FeedRejectCode) (feedId : string) : M unit :=
  do foundFeed <- findById feedId;
  match foundFeed with
  | None =>
      logger_warn
        ("No feed with ID " +:+ feedId +:+ " was found when attempting to" +:+
         " handle message from " +:+ queueName FeedRejectedDisableFeed)
  | Some _ =>
      match getUserFeedDisableCodeByFeedRejectCode rejectedCode with
      | None => throw "unhandled feed reject code"
      | Some code =>
          run updateOne
                (fun d => String.eqb (toHexString (_id d)) feedId
                          && not_exists (disabledCode d))
                (set_disabledCode code);
          ret tt
      end
  end.

(** ** handleRejectedArticleDisableConnection *)

(** The keys of [UserFeed["connections"]]. *)
Inductive ConnectionKey : Type :=
| discordChannelsKey
| discordWebhooksKey.

Definition set_con_disabledCode {T} (c : FeedConnectionDisabledCode)
    (con : Connection T) : Connection T :=
  {| con_id := con_id con;
     con_disabledCode := Some c;
     con_filters := con_filters con;
     con_details := con_details con;
     con_mentions := con_mentions con;
     con_splitOptions := con_splitOptions con |}.

(** The value at [connections.<key>.<idx>.disabledCode], if that path
    leads to one. *)
Definition path_disabledCode (k : ConnectionKey) (idx : nat) (d : UserFeed)
    : option FeedConnectionDisabledCode :=
  match k with
  | discordChannelsKey =>
      match discordChannels (connections d) !! idx with
      | Some con => con_disabledCode con
      | None => None
      end
  | discordWebhooksKey =>
      match discordWebhooks (connections d) !! idx with
      | Some con => con_disabledCode con
      | None => None
      end
  end.

(** [$set] of [connections.<key>.<idx>.disabledCode].  Below the length of
    the array this rewrites one field of one element.  At or beyond it the
    store would grow the array with an element that is no connection; the
    handler never addresses such an index (it takes [idx] from the length
    of the array it has just read), and the model leaves the document as
    it is there. *)
Definition set_path_disabledCode (k : ConnectionKey) (idx : nat)
    (c : FeedConnectionDisabledCode) (d : UserFeed) : UserFeed :=
  match k with
  | discordChannelsKey =>
      set_connections
        {| discordChannels :=
             alter (set_con_disabledCode c) idx (discordChannels (connections d));
           discordWebhooks := discordWebhooks (connections d) |} d
  | discordWebhooksKey =>
      set_connections
        {| discordChannels := discordChannels (connections d);
           discordWebhooks :=
             alter (set_con_disabledCode c) idx (discordWebhooks (connections d)) |} d
  end.

(** [Object.entries(foundFeed.connections)], the channels before the
    webhooks; the loop over an entry reads nothing of a connection but its
    [id]. *)
Definition connectionEntries (d : UserFeed) : list (ConnectionKey * list ObjectId) :=
  [ (discordChannelsKey, map con_id (discordChannels (connections d)));
    (discordWebhooksKey, map con_id (discordWebhooks (connections d))) ].

(** The inner loop, [conIdx] counting up from its argument. *)
Fixpoint disableMatchingFrom (feedId mediumId : string)
    (disableCode : FeedConnectionDisabledCode) (k : ConnectionKey)
    (ids : list ObjectId) (conIdx : nat) : M unit :=
  match ids with
  | [] => ret tt
  | cid :: rest =>
      run (if negb (String.eqb (toHexString cid) mediumId)
           then ret tt
           else
             run updateOne
                   (fun d => String.eqb (toHexString (_id d)) feedId
                             && not_exists (path_disabledCode k conIdx d))
                   (set_path_disabledCode k conIdx disableCode);
             ret tt);
      disableMatchingFrom feedId mediumId disableCode k rest (S conIdx)
  end.

Definition handleRejectedArticleDisableConnection
    (rejectedCode : ArticleRejectCode) (mediumId feedId : string) : M unit :=
  do foundFeed <- findById feedId;
  match foundFeed with
  | None =>
      logger_warn
        ("No feed with ID " +:+ feedId +:+ " was found when attempting to" +:+
         " handle message from " +:+
         queueName FeedRejectedArticleDisableConnection)
  | Some foundFeed =>
      match getConnectionDisableCodeByArticleRejectCode rejectedCode with
      | None => throw "unhandled article reject code"
      | Some disableCode =>
          for_of (connectionEntries foundFeed)
            (fun '(connectionKey, ids) =>
               disableMatchingFrom feedId mediumId disableCode connectionKey ids 0)
      end
  end.

(** ** emitUrlRequestEvent, emitUrlRequestBatchEvent *)

Definition emitUrlRequestEvent (u : string) (rateSeconds : Z) : M unit :=
  run publish UrlFetch
        (JObj [("data", JObj [("url", JStr u); ("rateSeconds", JNum rateSeconds)])])
        (rateSeconds * 1000)%Z;
  logger_debug "successfully emitted url request event".

Definition emitUrlRequestBatchEvent (rateSeconds : Z) (data : list string) : M unit :=
  do timestamp <- now;
  run publish UrlFetchBatch
        (JObj [("rateSeconds", JNum rateSeconds);
               ("data", JArr (map (fun u => JObj [("url", JStr u)]) data));
               ("timestamp", JNum timestamp)])
        (rateSeconds * 1000)%Z;
  logger_debug "successfully emitted url request event".

(** ** emitDeliverFeedArticlesEvent *)

(** [(c) => !c.disabledCode]; a disablement code is a member of a string
    enum, which is truthy. *)
Definition con_enabled {T} (c : Connection T) : bool :=
  not_exists (con_disabledCode c).

Definition medium_filters {T} (con : Connection T) : JSValue :=
  if truthy (js_opt_get (con_filters con) "expression")
  then JObj [("expression", js_opt_get (con_filters con) "expression")]
  else JNull.

Definition medium_formatter {T} (con : Connection T) : JSValue :=
  JObj [("formatTables", js_opt_get (formatter (con_details con)) "formatTables");
        ("stripImages", js_opt_get (formatter (con_details con)) "stripImages")].

Definition medium_splitOptions {T} (con : Connection T) : JSValue :=
  if truthy (js_opt_get (con_splitOptions con) "isEnabled")
  then con_splitOptions con
  else JUndefined.

Definition discordChannelMedium (con : DiscordChannelConnection) : JSValue :=
  let channel := target (con_details con) in
  JObj [("id", JStr (toHexString (con_id con)));
        ("key", JStr "discord");
        ("filters", medium_filters con);
        ("details",
         JObj [("guildId", JStr (channel_guildId channel));
               ("channel",
                JObj [("id", JStr (channel_id channel));
                      ("type", channel_type channel);
                      ("guildId", JStr (channel_guildId channel))]);
               ("content", castDiscordContentForMedium (content (con_details con)));
               ("embeds", castDiscordEmbedsForMedium (embeds (con_details con)));
               ("forumThreadTitle", forumThreadTitle (con_details con));
               ("forumThreadTags", forumThreadTags (con_details con));
               ("mentions", con_mentions con);
               ("formatter", medium_formatter con);
               ("splitOptions", medium_splitOptions con);
               ("placeholderLimits", placeholderLimits (con_details con));
               ("enablePlaceholderFallback",
                enablePlaceholderFallback (con_details con))])].

Definition discordWebhookMedium (con : DiscordWebhookConnection) : JSValue :=
  let webhook := target (con_details con) in
  JObj [("id", JStr (toHexString (con_id con)));
        ("key", JStr "discord");
        ("filters", medium_filters con);
        ("details",
         JObj [("guildId", JStr (webhook_guildId webhook));
               ("webhook",
                JObj [("id", JStr (webhook_id webhook));
                      ("token", JStr (webhook_token webhook));
                      ("name", webhook_name webhook);
                      ("iconUrl", webhook_iconUrl webhook)]);
               ("content", castDiscordContentForMedium (content (con_details con)));
               ("embeds", castDiscordEmbedsForMedium (embeds (con_details con)));
               ("formatter", medium_formatter con);
               ("splitOptions", medium_splitOptions con);
               ("mentions", con_mentions con);
               ("placeholderLimits", placeholderLimits (con_details con));
               ("enablePlaceholderFallback",
                enablePlaceholderFallback (con_details con))])].

Definition allMediums (userFeed : UserFeed) : list JSValue :=
  let discordChannelMediums :=
    map discordChannelMedium
      (List.filter con_enabled (discordChannels (connections userFeed))) in
  let discordWebhookMediums :=
    map discordWebhookMedium
      (List.filter con_enabled (discordWebhooks (connections userFeed))) in
  discordChannelMediums ++ discordWebhookMediums.

Definition emitDeliverFeedArticlesEvent (userFeed : UserFeed)
    (maxDailyArticles : Z) : M unit :=
  do timestamp <- now;
  run publish FeedDeliverArticles
        (JObj
           [("timestamp", JNum timestamp);
            ("data",
             JObj
               [("articleDayLimit", JNum maxDailyArticles);
                ("feed",
                 JObj
                   [("id", JStr (toHexString (_id userFeed)));
                    ("url", JStr (url userFeed));
                    ("passingComparisons",
                     js_or (passingComparisons userFeed) (JArr []));
                    ("blockingComparisons",
                     js_or (blockingComparisons userFeed) (JArr []));
                    ("formatOptions",
                     JObj
                       [("dateFormat",
                         js_opt_get (formatOptions userFeed) "dateFormat");
                        ("dateTimezone",
                         js_opt_get (formatOptions userFeed) "dateTimezone")]);
                    ("dateChecks", dateCheckOptions userFeed)]);
                ("mediums", JArr (allMediums userFeed))])])
        (1000 * 60 * 60)%Z;
  logger_debug "successfully emitted deliver feed articles event".

(** ** syncRefreshRates *)

Definition defaultRefreshRateSeconds : Z :=
  (BACKEND_API_DEFAULT_REFRESH_RATE_MINUTES * 60)%Z.

(** [Map<number, string[]>]: entries in insertion order. *)
Definition RateMap : Type := list (Z * list string).

Fixpoint Map_get (k : Z) (m : RateMap) : option (list string) :=
  match m with
  | [] => None
  | (k', ids) :: rest => if (k' =? k)%Z then Some ids else Map_get k rest
  end.

(** [m.get(k).push(id)]: the array stored under [k] grows in place. *)
Fixpoint Map_push (k : Z) (id : string) (m : RateMap) : RateMap :=
  match m with
  | [] => []
  | (k', ids) :: rest =>
      if (k' =? k)%Z then (k', ids ++ [id]) :: rest
      else (k', ids) :: Map_push k id rest
  end.

(** One turn of [for (const s of validSupporters)]. *)
Definition groupSupporter (supportersByRefreshRates : RateMap) (s : Benefit)
    : RateMap :=
  match Map_get (b_refreshRateSeconds s) supportersByRefreshRates with
  | None =>
      supportersByRefreshRates ++ [(b_refreshRateSeconds s, [b_discordUserId s])]
  | Some _ =>
      Map_push (b_refreshRateSeconds s) (b_discordUserId s) supportersByRefreshRates
  end.

Definition supportersByRefreshRates (validSupporters : list Benefit) : RateMap :=
  fold_left groupSupporter validSupporters [].

(** [{ $in: ids }] and [{ $nin: ids }] on a string field. *)
Definition js_in (x : string) (ids : list string) : bool :=
  existsb (String.eqb x) ids.

Definition js_nin (x : string) (ids : list string) : bool := negb (js_in x ids).

(** [{ $ne: r }] on the optional rate: a document without the field
    matches. *)
Definition rate_ne (o : option Z) (r : Z) : bool :=
  match o with
  | Some x => negb (x =? r)%Z
  | None => true
  end.

(** [{ refreshRateSeconds: r }]. *)
Definition rate_is (o : option Z) (r : Z) : bool :=
  match o with
  | Some x => (x =? r)%Z
  | None => false
  end.

(** The callbacks of [Promise.all(refreshRates.map(...))], issued in the
    order of the entries; [specialDiscordUserIds] is the array they push
    to. *)
Fixpoint syncPartitions (refreshRates : RateMap)
    (specialDiscordUserIds : list string) : M (list string) :=
  match refreshRates with
  | [] => ret specialDiscordUserIds
  | (rate, discordUserIds) :: rest =>
      run updateMany
            (fun d => js_in (discordUserId (user d)) discordUserIds
                      && rate_ne (refreshRateSeconds d) rate)
            (set_refreshRateSeconds rate);
      syncPartitions rest (specialDiscordUserIds ++ discordUserIds)
  end.

Definition syncRefreshRates : M unit :=
  do benefits <- getBenefitsOfAllDiscordUsers;
  let validSupporters := List.filter b_isSupporter benefits in
  let refreshRates := supportersByRefreshRates validSupporters in
  do specialDiscordUserIds <- syncPartitions refreshRates [];
  run updateMany
        (fun d => js_nin (discordUserId (user d)) specialDiscordUserIds
                  && rate_ne (refreshRateSeconds d) defaultRefreshRateSeconds)
        (set_refreshRateSeconds defaultRefreshRateSeconds);
  ret tt.

(** ** getFeedsQuery and the two reads built on it *)

(** ["path.0": { $exists: true }] *)
Definition has_first {A} (l : list A) : bool :=
  match l !! 0%nat with Some _ => true | None => false end.

(** [{ $elemMatch: { disabledCode: { $exists: false } } }] *)
Definition elemMatch_enabled {T} (l : list (Connection T)) : bool :=
  existsb (fun c => not_exists (con_disabledCode c)) l.

Definition getFeedsQuery (rate : Z) : FilterQuery :=
  fun d =>
    (rate_is (refreshRateSeconds d) rate && not_exists (disabledCode d))
    && ((has_first (discordChannels (connections d))
         && elemMatch_enabled (discordChannels (connections d)))
        || (has_first (discordWebhooks (connections d))
            && elemMatch_enabled (discordWebhooks (connections d)))).

(** [query.distinct("url")] *)
Definition getUrlsMatchingRefreshRate (refreshRateSeconds : Z) : M (list string) :=
  do docs <- find (getFeedsQuery refreshRateSeconds);
  ret (remove_dups (map url docs)).

(** [query.cursor()]; the cursor is drained over the collection as it
    stands when it is opened. *)
Definition getFeedCursorMatchingRefreshRate (refreshRateSeconds : Z)
    : M (list UserFeed) :=
  find (getFeedsQuery refreshRateSeconds).

Definition getValidDiscordUserSupporters : M (list Benefit) :=
  do allBenefits <- getBenefitsOfAllDiscordUsers;
  ret (List.filter b_isSupporter allBenefits).

(** ** handleRefreshRate *)

(** lodash's [chunk]: slices of [size] taken while elements remain; the
    loop runs at most once per element. *)
Fixpoint chunk_loop {A} (turns : nat) (size : nat) (l : list A) : list (list A) :=
  match turns with
  | O => []
  | S turns' =>
      match l with
      | [] => []
      | _ :: _ => take size l :: chunk_loop turns' size (drop size l)
      end
  end.

Definition chunk {A} (l : list A) (size : nat) : list (list A) :=
  match size with
  | O => []
  | S _ => chunk_loop (length l) size l
  end.

(** [Promise.all]: every computation is started, in order; the result
    throws when one of them threw. *)
Fixpoint Promise_all {A} (ps : list (M A)) : M (list A) :=
  match ps with
  | [] => ret []
  | p :: rest =>
      fun w =>
        let '(r, w1) := p w in
        let '(rs, w2) := Promise_all rest w1 in
        (match r, rs with
         | Returned a, Returned l => Returned (a :: l)
         | Thrown e, _ => Thrown e
         | Returned _, Thrown e => Thrown e
         end, w2)
  end.

(** [new Map(entries)]: a later entry replaces an earlier one with the
    same key. *)
Definition new_Map (entries : list (string * Z)) : gmap string Z :=
  fold_left (fun m kv => <[kv.1 := kv.2]> m) entries ∅.

Definition dailyLimitsByDiscordUserId (allBenefits : list Benefit) : gmap string Z :=
  new_Map (map (fun benefit => (b_discordUserId benefit, b_maxDailyArticles benefit))
             allBenefits).

Definition handleRefreshRate (refreshRateSeconds : Z)
    (urlsHandler : list string -> M unit)
    (feedHandler : UserFeed -> Z -> M unit) : M unit :=
  run syncRefreshRates;
  do allBenefits <- getBenefitsOfAllDiscordUsers;
  let dailyLimits := dailyLimitsByDiscordUserId allBenefits in
  do urls <- getUrlsMatchingRefreshRate refreshRateSeconds;
  run logger_debug
        ("Found " +:+ pretty (length urls) +:+ " urls with refresh rate " +:+
         pretty refreshRateSeconds);
  run Promise_all (map urlsHandler (chunk urls 25));
  do feedCursor <- getFeedCursorMatchingRefreshRate refreshRateSeconds;
  for_of feedCursor
    (fun feed =>
       let maxDailyArticles :=
         num_or (dailyLimits !! discordUserId (user feed)) maxDailyArticlesDefault in
       feedHandler feed maxDailyArticles).

(** Callbacks that do nothing but record how they were called. *)
Definition recordUrls (data : list string) : M unit :=
  fun w => (Returned tt, with_handlerCalls (handlerCalls w ++ [UrlsHandlerCall data]) w).

Definition recordFeed (feed : UserFeed) (maxDailyArticles : Z) : M unit :=
  fun w =>
    (Returned tt,
     with_handlerCalls (handlerCalls w ++ [FeedHandlerCall feed maxDailyArticles]) w).

(** ** Outcome events, as the three subscribers receive them *)

Inductive OutcomeEvent : Type :=
| UrlRequestFailure (u : string)
| FeedRejected (rejectedCode : FeedRejectCode) (feedId : string)
| ArticleRejected (rejectedCode : ArticleRejectCode) (mediumId feedId : string).

Definition handleOutcome (e : OutcomeEvent) : M unit :=
  match e with
  | UrlRequestFailure u => handleUrlRequestFailureEvent u
  | FeedRejected c feedId => handleFeedRejectedDisableFeed c feedId
  | ArticleRejected c mediumId feedId =>
      handleRejectedArticleDisableConnection c mediumId feedId
  end.

(** The broker delivers events one after another; a handler that throws
    leaves the world it reached and the next event is handled from
    there. *)
Fixpoint replay (events : list OutcomeEvent) (w : World) : World :=
  match events with
  | [] => w
  | e :: rest => replay rest (exec (handleOutcome e) w)
  end.

(** ** Notions used to state the properties *)

(** A destination after a rejection naming [mediumId]: an enabled
    destination of that identity takes the code, any other is as it was. *)
Definition disableIfMatching {T} (mediumId : string)
    (code : FeedConnectionDisabledCode) (con : Connection T) : Connection T :=
  if String.eqb (toHexString (con_id con)) mediumId
     && not_exists (con_disabledCode con)
  then set_con_disabledCode code con
  else con.

(** What the inner loop does to one document of the collection whose
    [_id] is the event's feed id. *)
Fixpoint docLoop (mediumId : string) (code : FeedConnectionDisabledCode)
    (k : ConnectionKey) (ids : list ObjectId) (conIdx : nat) (d : UserFeed)
    : UserFeed :=
  match ids with
  | [] => d
  | cid :: rest =>
      docLoop mediumId code k rest (S conIdx)
        (if String.eqb (toHexString cid) mediumId
            && not_exists (path_disabledCode k conIdx d)
         then set_path_disabledCode k conIdx code d
         else d)
  end.

(** What one partition's bulk update does to one document. *)
Definition partitionStep (d : UserFeed) (entry : Z * list string) : UserFeed :=
  if js_in (discordUserId (user d)) entry.2
     && rate_ne (refreshRateSeconds d) entry.1
  then set_refreshRateSeconds entry.1 d
  else d.

(** Account [u] sits in the partition of rate [r]. *)
Definition in_partition (m : RateMap) (r : Z) (u : string) : Prop :=
  exists ids, (r, ids) ∈ m /\ u ∈ ids.

(** The last bulk update of a synchronisation, on one document. *)
Definition defaultStep (specialDiscordUserIds : list string) (d : UserFeed) : UserFeed :=
  if js_nin (discordUserId (user d)) specialDiscordUserIds
     && rate_ne (refreshRateSeconds d) defaultRefreshRateSeconds
  then set_refreshRateSeconds defaultRefreshRateSeconds d
  else d.

(** [c'] is [c] later on with whatever code [c] carried still in place. *)
Definition con_sticky {T} (c c' : Connection T) : Prop :=
  con_id c' = con_id c
  /\ forall code, con_disabledCode c = Some code -> con_disabledCode c' = Some code.

Definition feed_sticky (d d' : UserFeed) : Prop :=
  _id d' = _id d
  /\ (forall code, disabledCode d = Some code -> disabledCode d' = Some code)
  /\ Forall2 con_sticky (discordChannels (connections d))
                        (discordChannels (connections d'))
  /\ Forall2 con_sticky (discordWebhooks (connections d))
                        (discordWebhooks (connections d')).

(** A feed a dispatch pass for [rate] may hand out: at that rate, enabled,
    and with an enabled destination of some kind. *)
Definition dispatchable (rate : Z) (d : UserFeed) : Prop :=
  refreshRateSeconds d = Some rate
  /\ disabledCode d = None
  /\ ((exists c, c ∈ discordChannels (connections d) /\ con_disabledCode c = None)
      \/ (exists c, c ∈ discordWebhooks (connections d) /\ con_disabledCode c = None)).

(** The [id] property of a medium on the wire. *)
Definition medium_id (m : JSValue) : JSValue := js_opt_get m "id".

(** ** Notions used to state further properties *)

(** The batches, and the feeds, of a sequence of callback invocations. *)
Definition urlBatches (calls : list HandlerCall) : list (list string) :=
  omap (fun c => match c with
                 | UrlsHandlerCall data => Some data
                 | FeedHandlerCall _ _ => None
                 end) calls.

Definition feedsHandedOut (calls : list HandlerCall) : list UserFeed :=
  omap (fun c => match c with
                 | UrlsHandlerCall _ => None
                 | FeedHandlerCall feed _ => Some feed
                 end) calls.

(** A dispatch pass whose callbacks are the service's own emitters. *)
Definition dispatchWithEmitters (refreshRateSeconds : Z) : M unit :=
  handleRefreshRate refreshRateSeconds
    (emitUrlRequestBatchEvent refreshRateSeconds)
    emitDeliverFeedArticlesEvent.

(** What the service can be asked to do to the collection. *)
Inductive Activity : Type :=
| Outcome (e : OutcomeEvent)
| Synchronise
| Dispatch (refreshRateSeconds : Z).

Definition perform (a : Activity) : M unit :=
  match a with
  | Outcome e => handleOutcome e
  | Synchronise => syncRefreshRates
  | Dispatch r => dispatchWithEmitters r
  end.

Fixpoint performAll (activities : list Activity) (w : World) : World :=
  match activities with
  | [] => w
  | a :: rest => performAll rest (exec (perform a) w)
  end.

(** The destinations of a feed, of either kind, with a given identity. *)
Definition matchingDestinations (mediumId : string) (d : UserFeed) : nat :=
  length (List.filter (fun c => String.eqb (toHexString (con_id c)) mediumId)
            (discordChannels (connections d)))
  + length (List.filter (fun c => String.eqb (toHexString (con_id c)) mediumId)
              (discordWebhooks (connections d))).

(** [c'] is [c] but, possibly, for a disablement code put in place. *)
Definition con_only_code_changed {T} (c c' : Connection T) : Prop :=
  c' = c \/ exists code, c' = set_con_disabledCode code c.

(** [d'] is [d] but for disablement: only the feed's disablement code, its
    health status and the disablement codes of its destinations may
    differ. *)
Definition only_disablement_changed (d d' : UserFeed) : Prop :=
  _id d' = _id d
  /\ url d' = url d
  /\ user d' = user d
  /\ refreshRateSeconds d' = refreshRateSeconds d
  /\ passingComparisons d' = passingComparisons d
  /\ blockingComparisons d' = blockingComparisons d
  /\ formatOptions d' = formatOptions d
  /\ dateCheckOptions d' = dateCheckOptions d
  /\ Forall2 con_only_code_changed (discordChannels (connections d))
                                   (discordChannels (connections d'))
  /\ Forall2 con_only_code_changed (discordWebhooks (connections d))
                                   (discordWebhooks (connections d')).

(** A feed with every enabled destination of identity [mediumId] given
    the code [code]. *)
Definition withDestinationRejected (mediumId : string)
    (code : FeedConnectionDisabledCode) (d : UserFeed) : UserFeed :=
  set_connections
    {| discordChannels :=
         map (disableIfMatching mediumId code) (discordChannels (connections d));
       discordWebhooks :=
         map (disableIfMatching mediumId code) (discordWebhooks (connections d)) |}
    d.

(** The messages of the two emitters a dispatch pass drives. *)
Definition urlBatchMessage (timestamp rateSeconds : Z) (data : list string) : Message :=
  {| exchange := "";
     queue := UrlFetchBatch;
     payload :=
       JObj [("rateSeconds", JNum rateSeconds);
             ("data", JArr (map (fun u => JObj [("url", JStr u)]) data));
             ("timestamp", JNum timestamp)];
     expiration := (rateSeconds * 1000)%Z |}.

Definition deliverMessage (timestamp : Z) (userFeed : UserFeed)
    (maxDailyArticles : Z) : Message :=
  {| exchange := "";
     queue := FeedDeliverArticles;
     payload :=
       JObj
         [("timestamp", JNum timestamp);
          ("data",
           JObj
             [("articleDayLimit", JNum maxDailyArticles);
              ("feed",
               JObj
                 [("id", JStr (toHexString (_id userFeed)));
                  ("url", JStr (url userFeed));
                  ("passingComparisons",
                   js_or (passingComparisons userFeed) (JArr []));
                  ("blockingComparisons",
                   js_or (blockingComparisons userFeed) (JArr []));
                  ("formatOptions",
                   JObj
                     [("dateFormat",
                       js_opt_get (formatOptions userFeed) "dateFormat");
                      ("dateTimezone",
                       js_opt_get (formatOptions userFeed) "dateTimezone")]);
                  ("dateChecks", dateCheckOptions userFeed)]);
              ("mediums", JArr (allMediums userFeed))])];
     expiration := (1000 * 60 * 60)%Z |}.

(** ** Notions used to state what a write leaves behind *)

(** The canonical hex string of an [ObjectId]: 24 digits among [0-9a-f]. *)
Definition isHexDigit (a : Ascii.ascii) : bool :=
  let n := Ascii.nat_of_ascii a in
  ((48 <=? n) && (n <=? 57) || (97 <=? n) && (n <=? 102))%nat.

Fixpoint allHexDigits (s : string) : bool :=
  match s with
  | EmptyString => true
  | String a rest => isHexDigit a && allHexDigits rest
  end.

Definition isObjectIdHex (s : string) : bool :=
  (String.length s =? 24)%nat && allHexDigits s.

(** [d'] has every field of [d] but, possibly, the refresh rate. *)
Definition only_rate_changed (d d' : UserFeed) : Prop :=
  _id d' = _id d
  /\ url d' = url d
  /\ user d' = user d
  /\ disabledCode d' = disabledCode d
  /\ healthStatus d' = healthStatus d
  /\ connections d' = connections d
  /\ passingComparisons d' = passingComparisons d
  /\ blockingComparisons d' = blockingComparisons d
  /\ formatOptions d' = formatOptions d
  /\ dateCheckOptions d' = dateCheckOptions d.

(** [d'] has every field of [d] but, possibly, the disablement code. *)
Definition only_code_changed (d d' : UserFeed) : Prop :=
  _id d' = _id d
  /\ url d' = url d
  /\ user d' = user d
  /\ refreshRateSeconds d' = refreshRateSeconds d
  /\ healthStatus d' = healthStatus d
  /\ connections d' = connections d
  /\ passingComparisons d' = passingComparisons d
  /\ blockingComparisons d' = blockingComparisons d
  /\ formatOptions d' = formatOptions d
  /\ dateCheckOptions d' = dateCheckOptions d.

(** [d'] has every field of [d] but, possibly, the disablement code and
    the health status. *)
Definition only_code_and_health_changed (d d' : UserFeed) : Prop :=
  _id d' = _id d
  /\ url d' = url d
  /\ user d' = user d
  /\ refreshRateSeconds d' = refreshRateSeconds d
  /\ connections d' = connections d
  /\ passingComparisons d' = passingComparisons d
  /\ blockingComparisons d' = blockingComparisons d
  /\ formatOptions d' = formatOptions d
  /\ dateCheckOptions d' = dateCheckOptions d.

End ScheduleHandler.

(** ** A concrete deployment, for examples *)

Definition demo : Collaborators :=
  {| UserFeedDisabledCode := string;
     FailedRequests := "FAILED_REQUESTS";
     UserFeedHealthStatus := string;
     Failed := "FAILED";
     FeedConnectionDisabledCode := string;
     FeedRejectCode := string;
     ArticleRejectCode := string;
     getUserFeedDisableCodeByFeedRejectCode :=
       fun c => if String.eqb c "user-feeds/invalid-feed"
                then Some "INVALID_FEED" else None;
     getConnectionDisableCodeByArticleRejectCode :=
       fun c => if String.eqb c "user-feeds/bad-request" then Some "BAD_FORMAT"
                else if String.eqb c "user-feeds/forbidden"
                     then Some "MISSING_PERMISSIONS" else None;
     castDiscordContentForMedium := fun v => v;
     castDiscordEmbedsForMedium := fun v => v;
     queueName := fun q =>
       match q with
       | UrlFailedDisableFeeds => "url.failed.disable-feeds"
       | FeedRejectedDisableFeed => "feed.rejected.disable-feed"
       | FeedRejectedArticleDisableConnection =>
           "feed.rejected-article.disable-connection"
       | UrlFetch => "url.fetch"
       | UrlFetchBatch => "url.fetch-batch"
       | FeedDeliverArticles => "feed.deliver-articles"
       end;
     BACKEND_API_DEFAULT_REFRESH_RATE_MINUTES := 10;
     maxDailyArticlesDefault := 50 |}.

Section Demo.
#[local] Existing Instance demo.

Definition demoChannel (i : string) (code : option string) : DiscordChannelConnection :=
  {| con_id := i;
     con_disabledCode := code;
     con_filters := JUndefined;
     con_details :=
       {| target := {| channel_id := "c-" +:+ i; channel_type := JUndefined;
                       channel_guildId := "g" |};
          content := JStr "{{title}}";
          embeds := JArr [];
          forumThreadTitle := JUndefined;
          forumThreadTags := JUndefined;
          formatter := JUndefined;
          placeholderLimits := JUndefined;
          enablePlaceholderFallback := JUndefined |};
     con_mentions := JUndefined;
     con_splitOptions := JUndefined |}.

Definition demoWebhook (i : string) (code : option string) : DiscordWebhookConnection :=
  {| con_id := i;
     con_disabledCode := code;
     con_filters := JUndefined;
     con_details :=
       {| target := {| webhook_id := "w-" +:+ i; webhook_token := "t";
                       webhook_name := JUndefined; webhook_iconUrl := JUndefined;
                       webhook_guildId := "g" |};
          content := JStr "{{title}}";
          embeds := JArr [];
          forumThreadTitle := JUndefined;
          forumThreadTags := JUndefined;
          formatter := JUndefined;
          placeholderLimits := JUndefined;
          enablePlaceholderFallback := JUndefined |};
     con_mentions := JUndefined;
     con_splitOptions := JUndefined |}.

Definition demoFeed (i u owner : string) (rate : Z) (code : option string)
    (channels : list DiscordChannelConnection)
    (webhooks : list DiscordWebhookConnection) : UserFeed :=
  {| _id := i; url := u; user := {| discordUserId := owner |};
     refreshRateSeconds := Some rate;
     disabledCode := code;
     healthStatus := "OK";
     connections := {| discordChannels := channels; discordWebhooks := webhooks |};
     passingComparisons := JUndefined;
     blockingComparisons := JUndefined;
     formatOptions := JUndefined;
     dateCheckOptions := JUndefined |}.

Definition demoBenefit (owner : string) (rate daily : Z) (supporter : bool) : Benefit :=
  {| b_discordUserId := owner;
     b_refreshRateSeconds := rate;
     b_maxDailyArticles := daily;
     b_maxUserFeeds := 5;
     b_isSupporter := supporter |}.

Definition demoWorld (feeds : list UserFeed) (benefits : list Benefit) : World :=
  {| userFeedModel := feeds;
     benefitsOfAllDiscordUsers := benefits;
     amqpConnection := [];
     logger := [];
     Date_now := 1700000000000;
     storeWrites := [];
     handlerCalls := [] |}.

(** Two feeds of a supporter and one of an account without a benefit; the
    second feed has a disabled channel and, under both kinds, a
    destination with the identity ["m2"]. *)
Definition demoF1 : UserFeed :=
  demoFeed "f1" "http://x" "u1" 600 None [demoChannel "m1" None] [].

Definition demoF2 : UserFeed :=
  demoFeed "f2" "http://x" "u1" 600 None
    [demoChannel "m1" (Some "MANUAL"); demoChannel "m2" None]
    [demoWebhook "m3" None; demoWebhook "m4" None; demoWebhook "m2" None].

Definition demoF3 : UserFeed :=
  demoFeed "f3" "http://y" "u2" 300 (Some "MANUAL") [demoChannel "m5" None] [].

(** A feed whose only destination is disabled. *)
Definition demoF4 : UserFeed :=
  demoFeed "f4" "http://z" "u1" 600 None [demoChannel "m6" (Some "MANUAL")] [].

Definition demoFeeds : list UserFeed := [demoF1; demoF2; demoF3].

Definition demoBenefits : list Benefit :=
  [ demoBenefit "u1" 300 100 true; demoBenefit "u3" 120 0 false ].

Definition demoW : World := demoWorld demoFeeds demoBenefits.

(** An account whose benefit record carries a daily limit of [0]. *)
Definition zeroLimitW : World :=
  demoWorld [demoF1] [demoBenefit "u1" 600 0 true].

End Demo.

(** * Properties *)

Section Properties.
Context `{Collaborators}.

(** ** Running the primitives *)

Lemma bind_returned {A B} (m : M A) (k : A -> M B) (w w' : World) (a : A) :
  m w = (Returned a, w') -> bind m k w = k a w'.
Proof. intros E. unfold bind. rewrite E. reflexivity. Qed.

Lemma bind_thrown {A B} (m : M A) (k : A -> M B) (w w' : World) (e : string) :
  m w = (Thrown e, w') -> bind m k w = (Thrown e, w').
Proof. intros E. unfold bind. rewrite E. reflexivity. Qed.

Lemma updateAll_length q set docs :
  length (updateAll q set docs) = length docs.
Proof. unfold updateAll. apply length_map. Qed.

Lemma updateAll_lookup q set docs (i : nat) (d : UserFeed) :
  docs !! i = Some d ->
  updateAll q set docs !! i = Some (if q d then set d else d).
Proof.
  intros E. unfold updateAll. rewrite list_lookup_fmap, E. reflexivity.
Qed.

Lemma eta_set_disabledCode (d : UserFeed) (c : UserFeedDisabledCode) :
  disabledCode d = Some c -> set_disabledCode c d = d.
Proof. destruct d; simpl; intros ->; reflexivity. Qed.

Lemma eta_set_refreshRateSeconds (d : UserFeed) (r : Z) :
  refreshRateSeconds d = Some r -> set_refreshRateSeconds r d = d.
Proof. destruct d; simpl; intros ->; reflexivity. Qed.

Lemma not_exists_true {A} (o : option A) : not_exists o = true <-> o = None.
Proof. destruct o; simpl; split; congruence. Qed.

Lemma not_exists_false {A} (o : option A) : not_exists o = false <-> o <> None.
Proof. destruct o; simpl; split; congruence. Qed.

(** ** Fetch-failure events *)

Lemma handleUrlRequestFailureEvent_run (u : string) (w : World) :
  handleUrlRequestFailureEvent u w =
  (Returned tt,
   let w1 := with_logger
               (logger w ++
                [LogDebug ("handling url request failure event for url " +:+ u)]) w in
   let q := fun d => String.eqb (url d) u && not_exists (disabledCode d) in
   with_storeWrites
     (storeWrites w ++ [{| matchedCount := count_matching q (userFeedModel w) |}])
     (with_userFeedModel
        (updateAll q
           (fun d => set_healthStatus Failed (set_disabledCode FailedRequests d))
           (userFeedModel w)) w1)).
Proof. reflexivity. Qed.

(** C5.  A fetch-failure event for [u] is one bulk update.  A feed of the
    collection whose URL is [u] and whose disablement code is absent comes
    out with the disablement code "failed requests" and the health status
    "failed", every other field as it was; a feed with another URL and a
    feed that already carries a code are exactly as they were. *)
Theorem fetch_failure_disables_enabled_feeds_of_url
    (u : string) (w : World) (i : nat) (d : UserFeed) :
  userFeedModel w !! i = Some d ->
  let w' := exec (handleUrlRequestFailureEvent u) w in
  outcome (handleUrlRequestFailureEvent u) w = Returned tt
  /\ (exists r, storeWrites w' = storeWrites w ++ [r])
  /\ length (userFeedModel w') = length (userFeedModel w)
  /\ (url d = u -> disabledCode d = None ->
      exists d',
        userFeedModel w' !! i = Some d'
        /\ disabledCode d' = Some FailedRequests
        /\ healthStatus d' = Failed
        /\ only_code_and_health_changed d d')
  /\ (url d <> u -> userFeedModel w' !! i = Some d)
  /\ (disabledCode d <> None -> userFeedModel w' !! i = Some d).
Proof.
  intros Hd w'. subst w'. unfold exec, outcome.
  rewrite handleUrlRequestFailureEvent_run. simpl.
  split; [reflexivity|].
  split; [eexists; reflexivity|].
  split; [apply updateAll_length|].
  pose proof (updateAll_lookup
    (fun d => String.eqb (url d) u && not_exists (disabledCode d))
    (fun d => set_healthStatus Failed (set_disabledCode FailedRequests d))
    _ _ _ Hd) as L.
  simpl in L. rewrite L. clear L.
  split; [|split].
  - intros Hu Hc. rewrite (proj2 (String.eqb_eq _ _) Hu), Hc. simpl.
    eexists. split; [reflexivity|]. simpl. repeat split.
  - intros Hu. rewrite (proj2 (String.eqb_neq _ _) Hu). reflexivity.
  - intros Hc. rewrite (proj2 (not_exists_false _) Hc), andb_false_r. reflexivity.
Qed.

(** ** Feed-rejection events *)

Lemma find_none_iff {A} (p : A -> bool) (l : list A) :
  List.find p l = None <-> forall x, x ∈ l -> p x = false.
Proof.
  induction l as [|a l IH]; simpl.
  - split; [intros _ x Hx; inversion Hx | reflexivity].
  - destruct (p a) eqn:E.
    + split; [discriminate|]. intros Hall.
      specialize (Hall a (list_elem_of_here _ _)). congruence.
    + rewrite IH. split.
      * intros Hall x Hx. apply elem_of_cons in Hx as [->|Hx]; auto.
      * intros Hall x Hx. apply Hall. apply list_elem_of_further, Hx.
Qed.

(** C7.  A feed-rejection event whose feed id -- the canonical hex of an
    [ObjectId] -- is the [_id] of no stored feed returns normally: it logs
    one warning, issues no store update, leaves the collection as it was
    and publishes nothing. *)
Theorem feed_rejection_for_missing_feed_is_noop
    (rejectedCode : FeedRejectCode) (feedId : string) (w : World) :
  isObjectIdHex feedId = true ->
  (forall d, d ∈ userFeedModel w -> toHexString (_id d) <> feedId) ->
  let w' := exec (handleFeedRejectedDisableFeed rejectedCode feedId) w in
  outcome (handleFeedRejectedDisableFeed rejectedCode feedId) w = Returned tt
  /\ userFeedModel w' = userFeedModel w
  /\ storeWrites w' = storeWrites w
  /\ amqpConnection w' = amqpConnection w
  /\ exists msg, logger w' = logger w ++ [LogWarn msg].
Proof.
  intros _ Hmiss w'. subst w'. unfold exec, outcome.
  assert (E : findById feedId w = (Returned None, w)).
  { unfold findById. f_equal. f_equal. apply find_none_iff.
    intros d Hd. apply String.eqb_neq. apply Hmiss, Hd. }
  unfold handleFeedRejectedDisableFeed.
  rewrite (bind_returned _ _ _ _ _ E). simpl.
  repeat split. eexists. reflexivity.
Qed.

(** ** The fetch-request emitter *)

(** C9, as the service has it.  One call of the single fetch-request
    emitter with url [u] and rate [r] publishes one message, to the
    fetch queue; its payload is [{data: {url: u, rateSeconds: r}}] and its
    expiration is [r * 1000] milliseconds. *)
Theorem emitUrlRequestEvent_payload_and_expiration
    (u : string) (r : Z) (w : World) :
  outcome (emitUrlRequestEvent u r) w = Returned tt
  /\ amqpConnection (exec (emitUrlRequestEvent u r) w) =
     amqpConnection w ++
     [{| exchange := "";
         queue := UrlFetch;
         payload := JObj [("data", JObj [("url", JStr u); ("rateSeconds", JNum r)])];
         expiration := (r * 1000)%Z |}].
Proof. split; reflexivity. Qed.

(** ** The delivery-event builder *)

Lemma emitDeliverFeedArticlesEvent_published (userFeed : UserFeed) (m : Z) (w : World) :
  exists msg,
    amqpConnection (exec (emitDeliverFeedArticlesEvent userFeed m) w) =
    amqpConnection w ++ [msg]
    /\ queue msg = FeedDeliverArticles
    /\ expiration msg = 3600000%Z
    /\ js_opt_get (js_opt_get (payload msg) "data") "mediums" =
       JArr (allMediums userFeed)
    /\ js_opt_get (js_opt_get (payload msg) "data") "articleDayLimit" = JNum m.
Proof. eexists. repeat split. Qed.

Lemma medium_id_channel (con : DiscordChannelConnection) :
  medium_id (discordChannelMedium con) = JStr (toHexString (con_id con)).
Proof. reflexivity. Qed.

Lemma medium_id_webhook (con : DiscordWebhookConnection) :
  medium_id (discordWebhookMedium con) = JStr (toHexString (con_id con)).
Proof. reflexivity. Qed.

Lemma filter_all_disabled {T} (l : list (Connection T)) :
  (forall c, c ∈ l -> con_disabledCode c <> None) ->
  List.filter con_enabled l = [].
Proof.
  induction l as [|c l IH]; intros Hall; simpl; [reflexivity|].
  unfold con_enabled at 1.
  rewrite (proj2 (not_exists_false _) (Hall c (list_elem_of_here _ _))).
  apply IH. intros c' Hc'. apply Hall, list_elem_of_further, Hc'.
Qed.

Lemma filter_enabled_spec {T} (l : list (Connection T)) :
  List.filter con_enabled l = filter (fun c => con_disabledCode c = None) l.
Proof.
  induction l as [|c l IH]; [reflexivity|].
  rewrite filter_cons. cbn [List.filter]. unfold con_enabled at 1. rewrite IH.
  destruct (decide _) as [E|E]; simpl in E.
  - rewrite E. reflexivity.
  - apply not_exists_false in E. rewrite E. reflexivity.
Qed.

(** C10.  The delivery-event builder publishes exactly one message, to the
    deliver-articles queue, whatever the feed.  Its mediums are the
    projections of the feed's channel destinations whose disablement code
    is absent, in stored order, followed by those of its webhook
    destinations whose disablement code is absent, in stored order (so
    their identities are the identities of those destinations in that
    order); when every destination carries a disablement code the message
    still goes out, with no medium. *)
Theorem deliver_event_published_once_with_enabled_mediums
    (userFeed : UserFeed) (maxDailyArticles : Z) (w : World) :
  let w' := exec (emitDeliverFeedArticlesEvent userFeed maxDailyArticles) w in
  let channels :=
    filter (fun c => con_disabledCode c = None)
           (discordChannels (connections userFeed)) in
  let webhooks :=
    filter (fun c => con_disabledCode c = None)
           (discordWebhooks (connections userFeed)) in
  outcome (emitDeliverFeedArticlesEvent userFeed maxDailyArticles) w = Returned tt
  /\ exists msg mediums,
      amqpConnection w' = amqpConnection w ++ [msg]
      /\ queue msg = FeedDeliverArticles
      /\ js_opt_get (js_opt_get (payload msg) "data") "mediums" = JArr mediums
      /\ mediums =
         map discordChannelMedium channels ++ map discordWebhookMedium webhooks
      /\ map medium_id mediums =
         map (fun c => JStr (con_id c)) channels ++
         map (fun c => JStr (con_id c)) webhooks
      /\ length mediums = (length channels + length webhooks)%nat
      /\ ((forall c, c ∈ discordChannels (connections userFeed) ->
                     con_disabledCode c <> None) ->
          (forall c, c ∈ discordWebhooks (connections userFeed) ->
                     con_disabledCode c <> None) ->
          mediums = []).
Proof.
  intros w' channels webhooks. split; [reflexivity|].
  destruct (emitDeliverFeedArticlesEvent_published userFeed maxDailyArticles w)
    as (msg & Hpub & Hq & _ & Hm & _).
  exists msg, (allMediums userFeed).
  assert (Eall : allMediums userFeed =
                 map discordChannelMedium channels ++
                 map discordWebhookMedium webhooks).
  { unfold allMediums, channels, webhooks. rewrite !filter_enabled_spec.
    reflexivity. }
  split; [exact Hpub|]. split; [exact Hq|]. split; [exact Hm|].
  split; [exact Eall|]. split; [|split].
  - rewrite Eall, map_app, !map_map. reflexivity.
  - rewrite Eall, length_app, !length_map. reflexivity.
  - intros Hc Hw. unfold allMediums.
    rewrite (filter_all_disabled _ Hc), (filter_all_disabled _ Hw).
    reflexivity.
Qed.

(** ** Refresh-rate synchronisation *)

Lemma js_in_true (x : string) (ids : list string) :
  js_in x ids = true <-> x ∈ ids.
Proof.
  unfold js_in. rewrite existsb_exists. split.
  - intros (y & Hy & E). apply String.eqb_eq in E. subst y.
    apply list_elem_of_In, Hy.
  - intros Hx. exists x. split; [apply list_elem_of_In, Hx|apply String.eqb_refl].
Qed.

Lemma js_in_false (x : string) (ids : list string) :
  js_in x ids = false <-> x ∉ ids.
Proof.
  rewrite <- js_in_true. destruct (js_in x ids); split; congruence.
Qed.

Lemma rate_ne_false (o : option Z) (r : Z) : rate_ne o r = false <-> o = Some r.
Proof.
  destruct o as [x|]; simpl; [|split; discriminate].
  rewrite negb_false_iff, Z.eqb_eq. split; congruence.
Qed.

(** *** Grouping the supporters by rate *)

Lemma in_partition_nil (r : Z) (u : string) : ~ in_partition [] r u.
Proof. intros (ids & Hin & _). inversion Hin. Qed.

Lemma in_partition_cons (k : Z) (ids : list string) (m : RateMap) (r : Z) (u : string) :
  in_partition ((k, ids) :: m) r u <-> (r = k /\ u ∈ ids) \/ in_partition m r u.
Proof.
  unfold in_partition. split.
  - intros (ids' & Hin & Hu). apply elem_of_cons in Hin as [E|Hin].
    + inversion E; subst. left. split; [reflexivity|exact Hu].
    + right. exists ids'. split; assumption.
  - intros [[-> Hu]|(ids' & Hin & Hu)].
    + exists ids. split; [apply list_elem_of_here|exact Hu].
    + exists ids'. split; [apply list_elem_of_further, Hin|exact Hu].
Qed.

Lemma in_partition_app (m1 m2 : RateMap) (r : Z) (u : string) :
  in_partition (m1 ++ m2) r u <-> in_partition m1 r u \/ in_partition m2 r u.
Proof.
  induction m1 as [|[k ids] m1 IH]; simpl.
  - split; [auto|]. intros [F|Hm]; [destruct (in_partition_nil _ _ F)|exact Hm].
  - rewrite !in_partition_cons, IH. tauto.
Qed.

Lemma Map_push_spec (k : Z) (id : string) (m : RateMap) (r : Z) (u : string) :
  Map_get k m <> None ->
  in_partition (Map_push k id m) r u <-> in_partition m r u \/ (r = k /\ u = id).
Proof.
  induction m as [|[k' ids] m IH]; simpl; intros Hget; [congruence|].
  destruct (k' =? k)%Z eqn:E.
  - apply Z.eqb_eq in E. subst k'.
    rewrite !in_partition_cons, elem_of_app, list_elem_of_singleton. tauto.
  - rewrite !in_partition_cons, (IH Hget). tauto.
Qed.

Lemma groupSupporter_spec (m : RateMap) (s : Benefit) (r : Z) (u : string) :
  in_partition (groupSupporter m s) r u <->
  in_partition m r u \/ (r = b_refreshRateSeconds s /\ u = b_discordUserId s).
Proof.
  unfold groupSupporter.
  destruct (Map_get (b_refreshRateSeconds s) m) eqn:E.
  - apply Map_push_spec. congruence.
  - rewrite in_partition_app, in_partition_cons, list_elem_of_singleton.
    pose proof (in_partition_nil r u). tauto.
Qed.

Lemma fold_groupSupporter_spec (vs : list Benefit) (m : RateMap) (r : Z) (u : string) :
  in_partition (fold_left groupSupporter vs m) r u <->
  in_partition m r u
  \/ exists b, b ∈ vs /\ r = b_refreshRateSeconds b /\ u = b_discordUserId b.
Proof.
  revert m. induction vs as [|s vs IH]; intros m; simpl.
  - split; [auto|]. intros [Hm|(b & Hb & _)]; [exact Hm|inversion Hb].
  - rewrite IH, groupSupporter_spec. split.
    + intros [[Hm|[-> ->]]|(b & Hb & E)].
      * left. exact Hm.
      * right. exists s. split; [apply list_elem_of_here|split; reflexivity].
      * right. exists b. split; [apply list_elem_of_further, Hb|exact E].
    + intros [Hm|(b & Hb & E)]; [left; left; exact Hm|].
      apply elem_of_cons in Hb as [->|Hb]; [left; right; exact E|].
      right. exists b. split; assumption.
Qed.

Lemma supportersByRefreshRates_spec (benefits : list Benefit) (r : Z) (u : string) :
  in_partition (supportersByRefreshRates (List.filter b_isSupporter benefits)) r u <->
  exists b, b ∈ benefits /\ b_isSupporter b = true
            /\ r = b_refreshRateSeconds b /\ u = b_discordUserId b.
Proof.
  unfold supportersByRefreshRates. rewrite fold_groupSupporter_spec. split.
  - intros [F|(b & Hb & E)]; [destruct (in_partition_nil _ _ F)|].
    apply list_elem_of_In, filter_In in Hb as [Hb Hs].
    exists b. split; [apply list_elem_of_In, Hb|split; assumption].
  - intros (b & Hb & Hs & E). right. exists b. split; [|exact E].
    apply list_elem_of_In, filter_In. split; [apply list_elem_of_In, Hb|exact Hs].
Qed.

Lemma in_concat_partitions (m : RateMap) (u : string) :
  u ∈ concat (map snd m) <-> exists r, in_partition m r u.
Proof.
  induction m as [|[k ids] m IH]; simpl.
  - split; [intros Hu; inversion Hu|intros (r & F); destruct (in_partition_nil _ _ F)].
  - rewrite elem_of_app, IH. split.
    + intros [Hu|(r & Hr)].
      * exists k. apply in_partition_cons. left. split; [reflexivity|exact Hu].
      * exists r. apply in_partition_cons. right. exact Hr.
    + intros (r & Hr). apply in_partition_cons in Hr as [[_ Hu]|Hr];
        [left; exact Hu|right; exists r; exact Hr].
Qed.

Lemma NoDup_map_elem_inj {A B} (f : A -> B) (l : list A) (x y : A) :
  NoDup (map f l) -> x ∈ l -> y ∈ l -> f x = f y -> x = y.
Proof.
  induction l as [|a l IH]; simpl; intros Hnd Hx Hy E; [inversion Hx|].
  apply NoDup_cons in Hnd as [Hna Hnd].
  apply elem_of_cons in Hx as [->|Hx]; apply elem_of_cons in Hy as [->|Hy].
  - reflexivity.
  - exfalso. apply Hna. rewrite E. apply list_elem_of_fmap. exists y. auto.
  - exfalso. apply Hna. rewrite <- E. apply list_elem_of_fmap. exists x. auto.
  - apply IH; assumption.
Qed.

(** *** One document under the bulk updates *)

Lemma partitionStep_user (d : UserFeed) (e : Z * list string) :
  user (partitionStep d e) = user d.
Proof. unfold partitionStep. destruct (_ && _); reflexivity. Qed.

Lemma fold_partitionStep_outside (m : RateMap) (d : UserFeed) :
  (forall r, ~ in_partition m r (discordUserId (user d))) ->
  fold_left partitionStep m d = d.
Proof.
  revert d. induction m as [|[k ids] m IH]; intros d Hout; simpl; [reflexivity|].
  assert (Hk : js_in (discordUserId (user d)) ids = false).
  { apply js_in_false. intros Hu. apply (Hout k), in_partition_cons. auto. }
  unfold partitionStep at 2. simpl. rewrite Hk. simpl.
  apply IH. intros r Hr. apply (Hout r), in_partition_cons. auto.
Qed.

Lemma fold_partitionStep_settled (m : RateMap) (d : UserFeed) (r : Z) :
  (forall r', in_partition m r' (discordUserId (user d)) -> r' = r) ->
  refreshRateSeconds d = Some r ->
  fold_left partitionStep m d = d.
Proof.
  revert d. induction m as [|[k ids] m IH]; intros d Hall Hr; simpl; [reflexivity|].
  assert (E : partitionStep d (k, ids) = d).
  { unfold partitionStep. simpl.
    destruct (js_in (discordUserId (user d)) ids) eqn:Hk; [|reflexivity].
    apply js_in_true in Hk.
    assert (k = r) as -> by (apply Hall, in_partition_cons; auto).
    rewrite (proj2 (rate_ne_false _ _) Hr). reflexivity. }
  rewrite E. apply IH; [|exact Hr].
  intros r' Hr'. apply Hall, in_partition_cons. auto.
Qed.

Lemma fold_partitionStep_inside (m : RateMap) (d : UserFeed) (r : Z) :
  (forall r', in_partition m r' (discordUserId (user d)) -> r' = r) ->
  in_partition m r (discordUserId (user d)) ->
  fold_left partitionStep m d = set_refreshRateSeconds r d.
Proof.
  revert d. induction m as [|[k ids] m IH]; intros d Hall Hin; simpl.
  - destruct (in_partition_nil _ _ Hin).
  - assert (Hrest : forall r', in_partition m r' (discordUserId (user d)) -> r' = r).
    { intros r' Hr'. apply Hall, in_partition_cons. auto. }
    unfold partitionStep at 2. simpl.
    destruct (js_in (discordUserId (user d)) ids) eqn:Hk; simpl.
    + apply js_in_true in Hk.
      assert (k = r) as -> by (apply Hall, in_partition_cons; auto).
      destruct (rate_ne (refreshRateSeconds d) r) eqn:Hne.
      * apply (fold_partitionStep_settled m _ r); [exact Hrest|reflexivity].
      * apply rate_ne_false in Hne.
        rewrite (eta_set_refreshRateSeconds d r Hne).
        apply (fold_partitionStep_settled m _ r); [exact Hrest|exact Hne].
    + apply js_in_false in Hk. apply IH; [exact Hrest|].
      apply in_partition_cons in Hin as [[_ Hu]|Hin]; [contradiction|exact Hin].
Qed.

(** *** The collection under a synchronisation *)

Lemma syncPartitions_cons (rate : Z) (ids : list string) (rest : RateMap)
    (acc : list string) (w : World) :
  syncPartitions ((rate, ids) :: rest) acc w =
  syncPartitions rest (acc ++ ids)
    (snd (updateMany
            (fun d => js_in (discordUserId (user d)) ids
                      && rate_ne (refreshRateSeconds d) rate)
            (set_refreshRateSeconds rate) w)).
Proof. reflexivity. Qed.

Lemma syncPartitions_outcome (m : RateMap) (acc : list string) (w : World) :
  fst (syncPartitions m acc w) = Returned (acc ++ concat (map snd m)).
Proof.
  revert acc w. induction m as [|[rate ids] m IH]; intros acc w.
  - simpl. rewrite app_nil_r. reflexivity.
  - rewrite syncPartitions_cons, IH. simpl. rewrite app_assoc. reflexivity.
Qed.

Lemma syncPartitions_store (m : RateMap) (acc : list string) (w : World) :
  userFeedModel (snd (syncPartitions m acc w)) =
  map (fun d => fold_left partitionStep m d) (userFeedModel w).
Proof.
  revert acc w. induction m as [|[rate ids] m IH]; intros acc w.
  - simpl. rewrite map_id. reflexivity.
  - rewrite syncPartitions_cons, IH. simpl. unfold updateAll.
    rewrite map_map. reflexivity.
Qed.

Lemma syncPartitions_benefits (m : RateMap) (acc : list string) (w : World) :
  benefitsOfAllDiscordUsers (snd (syncPartitions m acc w)) =
  benefitsOfAllDiscordUsers w.
Proof.
  revert acc w. induction m as [|[rate ids] m IH]; intros acc w; [reflexivity|].
  rewrite syncPartitions_cons, IH. reflexivity.
Qed.

Lemma count_matching_none (q : FilterQuery) (docs : list UserFeed) :
  (forall d, d ∈ docs -> q d = false) -> count_matching q docs = 0%nat.
Proof.
  unfold count_matching. induction docs as [|d docs IH]; intros Hq; simpl; [reflexivity|].
  rewrite (Hq d (list_elem_of_here _ _)). apply IH.
  intros d' Hd'. apply Hq, list_elem_of_further, Hd'.
Qed.

Lemma updateAll_none (q : FilterQuery) (set : UserFeed -> UserFeed)
    (docs : list UserFeed) :
  (forall d, d ∈ docs -> q d = false) -> updateAll q set docs = docs.
Proof.
  unfold updateAll. induction docs as [|d docs IH]; intros Hq; simpl; [reflexivity|].
  rewrite (Hq d (list_elem_of_here _ _)). f_equal. apply IH.
  intros d' Hd'. apply Hq, list_elem_of_further, Hd'.
Qed.

(** Partitions none of whose filters matches a document write nothing. *)
Lemma syncPartitions_quiet (m : RateMap) (acc : list string) (w : World) :
  (forall rate ids d, (rate, ids) ∈ m -> d ∈ userFeedModel w ->
     js_in (discordUserId (user d)) ids && rate_ne (refreshRateSeconds d) rate = false) ->
  userFeedModel (snd (syncPartitions m acc w)) = userFeedModel w
  /\ exists ws, storeWrites (snd (syncPartitions m acc w)) = storeWrites w ++ ws
                /\ Forall (fun r => matchedCount r = 0%nat) ws.
Proof.
  revert acc w. induction m as [|[rate ids] m IH]; intros acc w Hq.
  - simpl. split; [reflexivity|]. exists []. rewrite app_nil_r. split; [reflexivity|constructor].
  - rewrite syncPartitions_cons.
    set (q := fun d => js_in (discordUserId (user d)) ids
                       && rate_ne (refreshRateSeconds d) rate).
    assert (Hnone : forall d, d ∈ userFeedModel w -> q d = false).
    { intros d Hd. apply (Hq rate ids d); [apply list_elem_of_here|exact Hd]. }
    set (w1 := snd (updateMany q (set_refreshRateSeconds rate) w)).
    assert (Es : userFeedModel w1 = userFeedModel w).
    { subst w1. simpl. apply updateAll_none, Hnone. }
    assert (Ew : storeWrites w1 = storeWrites w ++ [{| matchedCount := 0 |}]).
    { subst w1. simpl. rewrite (count_matching_none q _ Hnone). reflexivity. }
    destruct (IH (acc ++ ids) w1) as (Hs & ws & Hws & Hall).
    { intros rate' ids' d Hin Hd. rewrite Es in Hd.
      apply (Hq rate' ids' d); [apply list_elem_of_further, Hin|exact Hd]. }
    split; [rewrite Hs; exact Es|].
    exists ({| matchedCount := 0 |} :: ws). split.
    + rewrite Hws, Ew, <- app_assoc. reflexivity.
    + constructor; [reflexivity|exact Hall].
Qed.

Lemma syncRefreshRates_run (w : World) :
  syncRefreshRates w =
  let m := supportersByRefreshRates
             (List.filter b_isSupporter (benefitsOfAllDiscordUsers w)) in
  let special := concat (map snd m) in
  (Returned tt,
   snd (updateMany
          (fun d => js_nin (discordUserId (user d)) special
                    && rate_ne (refreshRateSeconds d) defaultRefreshRateSeconds)
          (set_refreshRateSeconds defaultRefreshRateSeconds)
          (snd (syncPartitions m [] w)))).
Proof.
  unfold syncRefreshRates, getBenefitsOfAllDiscordUsers. unfold bind at 1. simpl.
  set (m := supportersByRefreshRates _).
  unfold bind at 1.
  pose proof (syncPartitions_outcome m [] w) as Ho.
  destruct (syncPartitions m [] w) as [r w1]. simpl in Ho. subst r. simpl.
  reflexivity.
Qed.

Lemma syncRefreshRates_store (w : World) :
  let m := supportersByRefreshRates
             (List.filter b_isSupporter (benefitsOfAllDiscordUsers w)) in
  userFeedModel (exec syncRefreshRates w) =
  map (fun d => defaultStep (concat (map snd m)) (fold_left partitionStep m d))
      (userFeedModel w).
Proof.
  intros m. unfold exec. rewrite syncRefreshRates_run. fold m. simpl.
  rewrite syncPartitions_store. unfold updateAll. rewrite map_map. reflexivity.
Qed.

Lemma syncRefreshRates_benefits (w : World) :
  benefitsOfAllDiscordUsers (exec syncRefreshRates w) = benefitsOfAllDiscordUsers w.
Proof.
  unfold exec. rewrite syncRefreshRates_run. simpl. apply syncPartitions_benefits.
Qed.

(** What a synchronisation makes of one document, by the benefits of its
    owner. *)
Lemma synchronised_document (benefits : list Benefit) (d : UserFeed) :
  NoDup (map b_discordUserId (List.filter b_isSupporter benefits)) ->
  let m := supportersByRefreshRates (List.filter b_isSupporter benefits) in
  let d' := defaultStep (concat (map snd m)) (fold_left partitionStep m d) in
  (forall b, b ∈ benefits -> b_isSupporter b = true ->
             b_discordUserId b = discordUserId (user d) ->
             d' = set_refreshRateSeconds (b_refreshRateSeconds b) d)
  /\ ((forall b, b ∈ benefits -> b_discordUserId b = discordUserId (user d) ->
                 b_isSupporter b = false) ->
      d' = set_refreshRateSeconds defaultRefreshRateSeconds d).
Proof.
  intros Hnd m d'. split.
  - intros b Hb Hs Hu.
    assert (Hin : in_partition m (b_refreshRateSeconds b) (discordUserId (user d))).
    { apply supportersByRefreshRates_spec. exists b. auto. }
    assert (Huniq : forall r', in_partition m r' (discordUserId (user d)) ->
                               r' = b_refreshRateSeconds b).
    { intros r' Hr'. apply supportersByRefreshRates_spec in Hr'
        as (b' & Hb' & Hs' & -> & Hu').
      f_equal. apply (NoDup_map_elem_inj b_discordUserId _ _ _ Hnd).
      - apply list_elem_of_In, filter_In. split; [apply list_elem_of_In, Hb'|exact Hs'].
      - apply list_elem_of_In, filter_In. split; [apply list_elem_of_In, Hb|exact Hs].
      - congruence. }
    subst d'. rewrite (fold_partitionStep_inside m d _ Huniq Hin).
    unfold defaultStep, js_nin. simpl.
    assert (Hsp : js_in (discordUserId (user d)) (concat (map snd m)) = true).
    { apply js_in_true, in_concat_partitions. eexists. exact Hin. }
    rewrite Hsp. reflexivity.
  - intros Hnone.
    assert (Hout : forall r, ~ in_partition m r (discordUserId (user d))).
    { intros r Hr. apply supportersByRefreshRates_spec in Hr
        as (b & Hb & Hs & _ & Hu).
      rewrite (Hnone b Hb (eq_sym Hu)) in Hs. discriminate. }
    subst d'. rewrite (fold_partitionStep_outside m d Hout).
    unfold defaultStep, js_nin.
    assert (Hsp : js_in (discordUserId (user d)) (concat (map snd m)) = false).
    { apply js_in_false. intros Hu. apply in_concat_partitions in Hu as (r & Hr).
      exact (Hout r Hr). }
    rewrite Hsp. simpl.
    destruct (rate_ne (refreshRateSeconds d) defaultRefreshRateSeconds) eqn:Hne;
      [reflexivity|].
    apply rate_ne_false in Hne. symmetry. apply eta_set_refreshRateSeconds, Hne.
Qed.

Lemma only_rate_changed_trans (a b c : UserFeed) :
  only_rate_changed a b -> only_rate_changed b c -> only_rate_changed a c.
Proof.
  intros (A1 & A2 & A3 & A4 & A5 & A6 & A7 & A8 & A9 & A10)
         (B1 & B2 & B3 & B4 & B5 & B6 & B7 & B8 & B9 & B10).
  repeat split; congruence.
Qed.

Lemma partitionStep_only_rate (d : UserFeed) (e : Z * list string) :
  only_rate_changed d (partitionStep d e).
Proof. unfold partitionStep. destruct (_ && _); repeat split. Qed.

Lemma fold_partitionStep_only_rate (m : RateMap) (d : UserFeed) :
  only_rate_changed d (fold_left partitionStep m d).
Proof.
  revert d. induction m as [|e m IH]; intros d; simpl; [repeat split|].
  eapply only_rate_changed_trans; [apply partitionStep_only_rate|apply IH].
Qed.

Lemma defaultStep_only_rate (special : list string) (d : UserFeed) :
  only_rate_changed d (defaultStep special d).
Proof. unfold defaultStep. destruct (_ && _); repeat split. Qed.

(** C1.  Let every account have at most one qualifying benefit record.
    One run of the synchronisation returns and keeps every feed at its
    place in the collection with every field but the refresh rate as it
    was.  The refresh rate of a feed is then the entitled rate of its
    owner's qualifying benefit, if the owner has one, and the process-wide
    default otherwise -- whatever the rate of the feed was, or whether it
    had one. *)
Theorem sync_sets_entitled_or_default_rate (w : World) (i : nat) (d : UserFeed) :
  NoDup (map b_discordUserId
           (List.filter b_isSupporter (benefitsOfAllDiscordUsers w))) ->
  userFeedModel w !! i = Some d ->
  let w' := exec syncRefreshRates w in
  outcome syncRefreshRates w = Returned tt
  /\ length (userFeedModel w') = length (userFeedModel w)
  /\ exists d',
      userFeedModel w' !! i = Some d'
      /\ only_rate_changed d d'
      /\ (forall b, b ∈ benefitsOfAllDiscordUsers w -> b_isSupporter b = true ->
                    b_discordUserId b = discordUserId (user d) ->
                    refreshRateSeconds d' = Some (b_refreshRateSeconds b))
      /\ ((forall b, b ∈ benefitsOfAllDiscordUsers w ->
                     b_discordUserId b = discordUserId (user d) ->
                     b_isSupporter b = false) ->
          refreshRateSeconds d' = Some defaultRefreshRateSeconds).
Proof.
  intros Hnd Hd w'. subst w'.
  split; [unfold outcome; rewrite syncRefreshRates_run; reflexivity|].
  rewrite syncRefreshRates_store.
  split; [apply length_map|].
  eexists. split; [rewrite list_lookup_fmap, Hd; reflexivity|].
  destruct (synchronised_document _ d Hnd) as [Hsup Hdef].
  split; [|split].
  - eapply only_rate_changed_trans;
      [apply fold_partitionStep_only_rate|apply defaultStep_only_rate].
  - intros b Hb Hs Hu. rewrite (Hsup b Hb Hs Hu). reflexivity.
  - intros Hnone. rewrite (Hdef Hnone). reflexivity.
Qed.

(** C4.  Let every account have at most one qualifying benefit record.
    A second run of the synchronisation, straight after a first one and
    over the same benefits, leaves the collection as the first run left
    it, and every bulk update it issues matches no document. *)
Theorem sync_twice_second_run_writes_nothing (w : World) :
  NoDup (map b_discordUserId
           (List.filter b_isSupporter (benefitsOfAllDiscordUsers w))) ->
  let w1 := exec syncRefreshRates w in
  let w2 := exec syncRefreshRates w1 in
  benefitsOfAllDiscordUsers w1 = benefitsOfAllDiscordUsers w
  /\ outcome syncRefreshRates w1 = Returned tt
  /\ userFeedModel w2 = userFeedModel w1
  /\ exists ws, storeWrites w2 = storeWrites w1 ++ ws
                /\ ws <> []
                /\ Forall (fun r => matchedCount r = 0%nat) ws.
Proof.
  intros Hnd w1 w2.
  assert (Eb : benefitsOfAllDiscordUsers w1 = benefitsOfAllDiscordUsers w)
    by apply syncRefreshRates_benefits.
  split; [exact Eb|].
  split; [unfold outcome; rewrite syncRefreshRates_run; reflexivity|].
  set (m := supportersByRefreshRates
              (List.filter b_isSupporter (benefitsOfAllDiscordUsers w))).
  assert (Es1 : userFeedModel w1 =
                map (fun d => defaultStep (concat (map snd m))
                                (fold_left partitionStep m d)) (userFeedModel w))
    by apply syncRefreshRates_store.
  (* every document of the first run's result is settled *)
  assert (Hsettled : forall d1, d1 ∈ userFeedModel w1 ->
            (forall rate ids, (rate, ids) ∈ m ->
               js_in (discordUserId (user d1)) ids
               && rate_ne (refreshRateSeconds d1) rate = false)
            /\ js_nin (discordUserId (user d1)) (concat (map snd m))
               && rate_ne (refreshRateSeconds d1) defaultRefreshRateSeconds = false).
  { intros d1 Hd1. rewrite Es1 in Hd1.
    apply list_elem_of_fmap in Hd1 as (d & -> & _).
    pose proof (synchronised_document _ d Hnd) as [Hsup Hdef]. fold m in Hsup, Hdef.
    set (d1 := defaultStep _ _) in *.
    destruct (js_in (discordUserId (user d)) (concat (map snd m))) eqn:Hsp.
    - apply js_in_true, in_concat_partitions in Hsp as (r & Hr).
      pose proof Hr as Hr0.
      apply supportersByRefreshRates_spec in Hr as (b & Hb & Hs & -> & Hu).
      pose proof (Hsup b Hb Hs (eq_sym Hu)) as E. rewrite E. simpl. split.
      + intros rate ids Hin.
        destruct (js_in (discordUserId (user d)) ids) eqn:Hk; [|reflexivity].
        simpl. rewrite negb_false_iff, Z.eqb_eq.
        assert (Hp : in_partition m rate (discordUserId (user d))).
        { exists ids. split; [exact Hin|apply js_in_true, Hk]. }
        apply supportersByRefreshRates_spec in Hp as (b' & Hb' & Hs' & -> & Hu').
        f_equal. apply (NoDup_map_elem_inj b_discordUserId _ _ _ Hnd).
        * apply list_elem_of_In, filter_In. split; [apply list_elem_of_In, Hb|exact Hs].
        * apply list_elem_of_In, filter_In. split; [apply list_elem_of_In, Hb'|exact Hs'].
        * congruence.
      + unfold js_nin.
        assert (Hsp' : js_in (discordUserId (user d)) (concat (map snd m)) = true).
        { apply js_in_true, in_concat_partitions. eexists. exact Hr0. }
        rewrite Hsp'. reflexivity.
    - assert (Hout : forall r, ~ in_partition m r (discordUserId (user d))).
      { intros r Hr. apply js_in_false in Hsp. apply Hsp, in_concat_partitions.
        exists r. exact Hr. }
      assert (E : d1 = set_refreshRateSeconds defaultRefreshRateSeconds d).
      { apply Hdef. intros b Hb Hu. destruct (b_isSupporter b) eqn:Hs; [|reflexivity].
        exfalso. apply (Hout (b_refreshRateSeconds b)).
        apply supportersByRefreshRates_spec. exists b. auto. }
      rewrite E. simpl. split.
      + intros rate ids Hin.
        destruct (js_in (discordUserId (user d)) ids) eqn:Hk; [|reflexivity].
        exfalso. apply (Hout rate). exists ids. split; [exact Hin|apply js_in_true, Hk].
      + rewrite Z.eqb_refl, andb_false_r. reflexivity. }
  set (q := fun d => js_nin (discordUserId (user d)) (concat (map snd m))
                     && rate_ne (refreshRateSeconds d) defaultRefreshRateSeconds).
  assert (E2 : w2 = snd (updateMany q (set_refreshRateSeconds defaultRefreshRateSeconds)
                           (snd (syncPartitions m [] w1)))).
  { subst w2. unfold exec. rewrite syncRefreshRates_run, Eb. reflexivity. }
  rewrite E2. clear E2. simpl.
  destruct (syncPartitions_quiet m [] w1) as (Hs & ws & Hws & Hall).
  { intros rate ids d1 Hin Hd1. apply (Hsettled d1 Hd1). exact Hin. }
  assert (Hnone : forall d1, d1 ∈ userFeedModel (snd (syncPartitions m [] w1)) ->
                             q d1 = false).
  { intros d1 Hd1. rewrite Hs in Hd1. apply (Hsettled d1 Hd1). }
  split; [rewrite (updateAll_none q _ _ Hnone); exact Hs|].
  exists (ws ++ [{| matchedCount := 0 |}]).
  split; [|split].
  - rewrite (count_matching_none q _ Hnone), Hws, <- app_assoc. reflexivity.
  - intros E. apply app_eq_nil in E as [_ E]. discriminate.
  - apply Forall_app. split; [exact Hall|]. constructor; [reflexivity|constructor].
Qed.

(** ** Disablement codes are never cleared or overwritten *)

#[local] Instance con_sticky_refl {T} : Reflexive (@con_sticky _ T).
Proof. intros c. split; [reflexivity|auto]. Qed.

#[local] Instance con_sticky_trans {T} : Transitive (@con_sticky _ T).
Proof.
  intros a b c [Hab1 Hab2] [Hbc1 Hbc2]. split; [congruence|auto].
Qed.

#[local] Instance feed_sticky_refl : Reflexive feed_sticky.
Proof. intros d. repeat split; auto; reflexivity. Qed.

#[local] Instance feed_sticky_trans : Transitive feed_sticky.
Proof.
  intros a b c (Hab1 & Hab2 & Hab3 & Hab4) (Hbc1 & Hbc2 & Hbc3 & Hbc4).
  split; [congruence|]. split; [auto|]. split; etransitivity; eassumption.
Qed.

Lemma updateAll_sticky (q : FilterQuery) (set : UserFeed -> UserFeed)
    (docs : list UserFeed) :
  (forall d, q d = true -> feed_sticky d (set d)) ->
  Forall2 feed_sticky docs (updateAll q set docs).
Proof.
  intros Hset. unfold updateAll. induction docs as [|d docs IH]; simpl; constructor.
  - destruct (q d) eqn:E; [apply Hset, E|reflexivity].
  - exact IH.
Qed.

Lemma updateFirst_sticky (q : FilterQuery) (set : UserFeed -> UserFeed)
    (docs : list UserFeed) :
  (forall d, q d = true -> feed_sticky d (set d)) ->
  Forall2 feed_sticky docs (updateFirst q set docs).
Proof.
  intros Hset. induction docs as [|d docs IH]; simpl; [constructor|].
  destruct (q d) eqn:E; constructor;
    [apply Hset, E|reflexivity|reflexivity|exact IH].
Qed.

Lemma alter_sticky {T} (c : FeedConnectionDisabledCode) (idx : nat)
    (l : list (Connection T)) :
  (forall con, l !! idx = Some con -> con_disabledCode con = None) ->
  Forall2 con_sticky l (alter (set_con_disabledCode c) idx l).
Proof.
  revert idx. induction l as [|x l IH]; intros idx Hnone; [constructor|].
  destruct idx as [|idx]; simpl; constructor.
  - split; [reflexivity|]. intros code Hcode.
    rewrite (Hnone x eq_refl) in Hcode. discriminate.
  - reflexivity.
  - reflexivity.
  - apply IH. intros con Hcon. apply Hnone. exact Hcon.
Qed.

Lemma lookup_code_none {T} (l : list (Connection T)) (idx : nat) :
  match l !! idx with Some con => con_disabledCode con | None => None end = None ->
  forall con, l !! idx = Some con -> con_disabledCode con = None.
Proof. intros Hnone con Hcon. rewrite Hcon in Hnone. exact Hnone. Qed.

Lemma set_path_sticky (k : ConnectionKey) (idx : nat)
    (c : FeedConnectionDisabledCode) (d : UserFeed) :
  path_disabledCode k idx d = None ->
  feed_sticky d (set_path_disabledCode k idx c d).
Proof.
  intros Hnone. destruct k; unfold path_disabledCode in Hnone;
    unfold feed_sticky, set_path_disabledCode;
    cbn [connections set_connections discordChannels discordWebhooks _id disabledCode].
  - split; [reflexivity|]. split; [auto|]. split; [|reflexivity].
    apply alter_sticky, lookup_code_none, Hnone.
  - split; [reflexivity|]. split; [auto|]. split; [reflexivity|].
    apply alter_sticky, lookup_code_none, Hnone.
Qed.

Lemma disableMatchingFrom_cons (feedId mediumId : string)
    (code : FeedConnectionDisabledCode) (k : ConnectionKey)
    (cid : ObjectId) (rest : list ObjectId) (conIdx : nat) (w : World) :
  disableMatchingFrom feedId mediumId code k (cid :: rest) conIdx w =
  disableMatchingFrom feedId mediumId code k rest (S conIdx)
    (if String.eqb (toHexString cid) mediumId
     then snd (updateOne
                 (fun d => String.eqb (toHexString (_id d)) feedId
                           && not_exists (path_disabledCode k conIdx d))
                 (set_path_disabledCode k conIdx code) w)
     else w).
Proof.
  simpl. unfold bind at 1.
  destruct (String.eqb (toHexString cid) mediumId); reflexivity.
Qed.

Lemma disableMatchingFrom_outcome (feedId mediumId : string)
    (code : FeedConnectionDisabledCode) (k : ConnectionKey)
    (ids : list ObjectId) (conIdx : nat) (w : World) :
  fst (disableMatchingFrom feedId mediumId code k ids conIdx w) = Returned tt.
Proof.
  revert conIdx w. induction ids as [|cid rest IH]; intros conIdx w; [reflexivity|].
  rewrite disableMatchingFrom_cons. apply IH.
Qed.

Lemma disableMatchingFrom_sticky (feedId mediumId : string)
    (code : FeedConnectionDisabledCode) (k : ConnectionKey)
    (ids : list ObjectId) (conIdx : nat) (w : World) :
  Forall2 feed_sticky (userFeedModel w)
    (userFeedModel (snd (disableMatchingFrom feedId mediumId code k ids conIdx w))).
Proof.
  revert conIdx w. induction ids as [|cid rest IH]; intros conIdx w; [reflexivity|].
  rewrite disableMatchingFrom_cons.
  etransitivity; [|apply IH].
  destruct (String.eqb (toHexString cid) mediumId); [|reflexivity].
  simpl. apply updateFirst_sticky. intros d Hq.
  apply andb_true_iff in Hq as [_ Hq]. apply set_path_sticky, not_exists_true, Hq.
Qed.

(** The two turns of the outer loop, one per kind of destination. *)
Lemma connection_loops_run (feedId mediumId : string)
    (code : FeedConnectionDisabledCode) (foundFeed : UserFeed) (w : World) :
  for_of (connectionEntries foundFeed)
    (fun '(connectionKey, ids) =>
       disableMatchingFrom feedId mediumId code connectionKey ids 0) w =
  (Returned tt,
   snd (disableMatchingFrom feedId mediumId code discordWebhooksKey
          (map con_id (discordWebhooks (connections foundFeed))) 0
          (snd (disableMatchingFrom feedId mediumId code discordChannelsKey
                  (map con_id (discordChannels (connections foundFeed))) 0 w)))).
Proof.
  unfold connectionEntries. simpl. unfold bind at 1.
  pose proof (disableMatchingFrom_outcome feedId mediumId code discordChannelsKey
                (map con_id (discordChannels (connections foundFeed))) 0 w) as E1.
  destruct (disableMatchingFrom feedId mediumId code discordChannelsKey _ 0 w)
    as [r1 w1].
  simpl in E1. subst r1. simpl. unfold bind at 1.
  pose proof (disableMatchingFrom_outcome feedId mediumId code discordWebhooksKey
                (map con_id (discordWebhooks (connections foundFeed))) 0 w1) as E2.
  destruct (disableMatchingFrom feedId mediumId code discordWebhooksKey _ 0 w1)
    as [r2 w2].
  simpl in E2. subst r2. reflexivity.
Qed.

Lemma handleOutcome_sticky (e : OutcomeEvent) (w : World) :
  Forall2 feed_sticky (userFeedModel w) (userFeedModel (exec (handleOutcome e) w)).
Proof.
  destruct e as [u|rejectedCode feedId|rejectedCode mediumId feedId];
    unfold exec, handleOutcome.
  - rewrite handleUrlRequestFailureEvent_run. simpl.
    apply updateAll_sticky. intros d Hq.
    apply andb_true_iff in Hq as [_ Hq]. apply not_exists_true in Hq.
    split; [reflexivity|]. split; [|split; reflexivity].
    intros code Hcode. congruence.
  - unfold handleFeedRejectedDisableFeed, bind at 1, findById. simpl.
    destruct (List.find _ (userFeedModel w)) as [found|]; [|reflexivity].
    destruct (getUserFeedDisableCodeByFeedRejectCode rejectedCode) as [code|];
      [|reflexivity].
    simpl. apply updateFirst_sticky. intros d Hq.
    apply andb_true_iff in Hq as [_ Hq]. apply not_exists_true in Hq.
    split; [reflexivity|]. split; [|split; reflexivity].
    intros code' Hcode. congruence.
  - unfold handleRejectedArticleDisableConnection. unfold bind at 1.
    unfold findById. cbv beta iota.
    destruct (List.find _ (userFeedModel w)) as [found|]; [|reflexivity].
    destruct (getConnectionDisableCodeByArticleRejectCode rejectedCode) as [code|];
      [|reflexivity].
    rewrite connection_loops_run. simpl.
    etransitivity; apply disableMatchingFrom_sticky.
Qed.

(** C2.  Replay any sequence of outcome events (fetch failures, feed
    rejections, destination rejections) from any state of the collection.
    Every feed is still at its place, and a disablement code that a feed,
    or a destination of a feed, carried before the replay is the code it
    carries after it: no handler clears or overwrites a code that is
    set. *)
Theorem disablement_codes_survive_replay (events : list OutcomeEvent) (w : World) :
  Forall2 feed_sticky (userFeedModel w) (userFeedModel (replay events w)).
Proof.
  revert w. induction events as [|e events IH]; intros w; simpl; [reflexivity|].
  etransitivity; [apply handleOutcome_sticky|apply IH].
Qed.

(** ** Destination-rejection events *)

Lemma updateAll_ids (q : FilterQuery) (set : UserFeed -> UserFeed)
    (docs : list UserFeed) :
  (forall d, _id (set d) = _id d) ->
  map _id (updateAll q set docs) = map _id docs.
Proof.
  intros Hid. unfold updateAll. rewrite map_map. apply map_ext.
  intros d. destruct (q d); [apply Hid|reflexivity].
Qed.

(** Identities are unique in the collection, so the single update of a
    filter that fixes the identity is the bulk update of that filter. *)
Lemma updateFirst_unique (q : FilterQuery) (set : UserFeed -> UserFeed)
    (docs : list UserFeed) (feedId : string) :
  NoDup (map _id docs) ->
  (forall d, q d = true -> toHexString (_id d) = feedId) ->
  updateFirst q set docs = updateAll q set docs.
Proof.
  intros Hnd Hq. induction docs as [|d docs IH]; simpl; [reflexivity|].
  simpl in Hnd. apply NoDup_cons in Hnd as [Hnotin Hnd].
  destruct (q d) eqn:E.
  - f_equal. symmetry. apply updateAll_none. intros d' Hd'.
    destruct (q d') eqn:E'; [|reflexivity].
    exfalso. apply Hnotin.
    assert (_id d = _id d') as ->.
    { pose proof (Hq d E). pose proof (Hq d' E'). unfold toHexString in *. congruence. }
    apply list_elem_of_fmap. exists d'. auto.
  - f_equal. apply IH, Hnd.
Qed.

Lemma set_path_id (k : ConnectionKey) (idx : nat)
    (c : FeedConnectionDisabledCode) (d : UserFeed) :
  _id (set_path_disabledCode k idx c d) = _id d.
Proof. destruct k; reflexivity. Qed.

Lemma docLoop_id (mediumId : string) (code : FeedConnectionDisabledCode)
    (k : ConnectionKey) (ids : list ObjectId) (conIdx : nat) (d : UserFeed) :
  _id (docLoop mediumId code k ids conIdx d) = _id d.
Proof.
  revert conIdx d. induction ids as [|cid rest IH]; intros conIdx d; simpl;
    [reflexivity|].
  rewrite IH. destruct (_ && _); [apply set_path_id|reflexivity].
Qed.

Lemma docLoop_cons (mediumId : string) (code : FeedConnectionDisabledCode)
    (k : ConnectionKey) (cid : ObjectId) (rest : list ObjectId) (conIdx : nat)
    (d : UserFeed) :
  docLoop mediumId code k (cid :: rest) conIdx d =
  docLoop mediumId code k rest (S conIdx)
    (if String.eqb (toHexString cid) mediumId
        && not_exists (path_disabledCode k conIdx d)
     then set_path_disabledCode k conIdx code d
     else d).
Proof. reflexivity. Qed.

Lemma disableMatchingFrom_store (feedId mediumId : string)
    (code : FeedConnectionDisabledCode) (k : ConnectionKey)
    (ids : list ObjectId) (conIdx : nat) (w : World) :
  NoDup (map _id (userFeedModel w)) ->
  userFeedModel (snd (disableMatchingFrom feedId mediumId code k ids conIdx w)) =
  map (fun d => if String.eqb (toHexString (_id d)) feedId
                then docLoop mediumId code k ids conIdx d else d)
      (userFeedModel w).
Proof.
  revert conIdx w. induction ids as [|cid rest IH]; intros conIdx w Hnd.
  - simpl. symmetry. erewrite map_ext; [apply map_id|].
    intros d. simpl.
    destruct (String.eqb (toHexString (_id d)) feedId); reflexivity.
  - rewrite disableMatchingFrom_cons.
    set (q := fun d => String.eqb (toHexString (_id d)) feedId
                       && not_exists (path_disabledCode k conIdx d)).
    set (w1 := if String.eqb (toHexString cid) mediumId
               then snd (updateOne q (set_path_disabledCode k conIdx code) w)
               else w).
    assert (Es : userFeedModel w1 =
                 map (fun d => if String.eqb (toHexString (_id d)) feedId
                               then (if String.eqb (toHexString cid) mediumId
                                        && not_exists (path_disabledCode k conIdx d)
                                     then set_path_disabledCode k conIdx code d
                                     else d)
                               else d) (userFeedModel w)).
    { subst w1. destruct (String.eqb (toHexString cid) mediumId).
      - simpl. rewrite (updateFirst_unique q _ _ feedId Hnd).
        + unfold updateAll, q. apply map_ext. intros d.
          destruct (String.eqb (toHexString (_id d)) feedId); reflexivity.
        + intros d Hd. unfold q in Hd. apply andb_true_iff in Hd as [Hd _].
          apply String.eqb_eq, Hd.
      - symmetry. erewrite map_ext; [apply map_id|].
        intros d. simpl.
        destruct (String.eqb (toHexString (_id d)) feedId); reflexivity. }
    assert (Hnd1 : NoDup (map _id (userFeedModel w1))).
    { rewrite Es, map_map. erewrite map_ext; [exact Hnd|].
      intros d. simpl.
      destruct (String.eqb (toHexString (_id d)) feedId); [|reflexivity].
      destruct (_ && _); [apply set_path_id|reflexivity]. }
    rewrite (IH (S conIdx) w1 Hnd1), Es, map_map. apply map_ext.
    intros d. simpl.
    destruct (String.eqb (toHexString (_id d)) feedId) eqn:E.
    + destruct (String.eqb (toHexString cid) mediumId
                && not_exists (path_disabledCode k conIdx d)).
      * rewrite set_path_id, E. reflexivity.
      * rewrite E. reflexivity.
    + rewrite E. reflexivity.
Qed.

Lemma set_connections_twice (c c' : Connections) (d : UserFeed) :
  set_connections c (set_connections c' d) = set_connections c d.
Proof. reflexivity. Qed.

Lemma set_connections_same (d : UserFeed) :
  set_connections (connections d) d = d.
Proof. destruct d; reflexivity. Qed.

Lemma alter_middle {A} (f : A -> A) (pre suf : list A) (x : A) :
  alter f (length pre) (pre ++ x :: suf) = pre ++ f x :: suf.
Proof.
  rewrite <- (Nat.add_0_r (length pre)), alter_app_r. reflexivity.
Qed.

(** The loop over the channels of a document, begun at the position where
    [suf] starts. *)
Lemma docLoop_channels (mediumId : string) (code : FeedConnectionDisabledCode)
    (suf pre : list DiscordChannelConnection) (d : UserFeed) :
  discordChannels (connections d) = pre ++ suf ->
  docLoop mediumId code discordChannelsKey (map con_id suf) (length pre) d =
  set_connections
    {| discordChannels := pre ++ map (disableIfMatching mediumId code) suf;
       discordWebhooks := discordWebhooks (connections d) |} d.
Proof.
  unfold DiscordChannelConnection, DiscordWebhookConnection in *.
  revert pre d. induction suf as [|c suf IH]; intros pre d Hd.
  - simpl. destruct d as [? ? ? ? ? ? [chs whs]]. simpl in Hd. subst. reflexivity.
  - cbn [map]. rewrite docLoop_cons.
    assert (Hpath : path_disabledCode discordChannelsKey (length pre) d =
                    con_disabledCode c).
    { unfold path_disabledCode, DiscordChannelConnection, DiscordWebhookConnection.
      rewrite Hd, list_lookup_middle by reflexivity. reflexivity. }
    rewrite Hpath.
    set (d1 := if String.eqb (toHexString (con_id c)) mediumId
                  && not_exists (con_disabledCode c)
               then set_path_disabledCode discordChannelsKey (length pre) code d
               else d).
    assert (Hd1 : discordChannels (connections d1) =
                  (pre ++ [disableIfMatching mediumId code c]) ++ suf).
    { subst d1. unfold disableIfMatching. rewrite <- app_assoc. simpl.
      destruct (_ && _); [|exact Hd].
      simpl. rewrite Hd. apply alter_middle. }
    assert (Hw1 : discordWebhooks (connections d1) = discordWebhooks (connections d)).
    { subst d1. destruct (_ && _); reflexivity. }
    assert (Hs1 : forall cs, set_connections cs d1 = set_connections cs d).
    { intros cs. subst d1. destruct (_ && _); reflexivity. }
    replace (S (length pre)) with (length (pre ++ [disableIfMatching mediumId code c]))
      by (rewrite length_app; simpl; lia).
    rewrite (IH _ d1 Hd1), Hw1, Hs1, <- app_assoc. reflexivity.
Qed.

Lemma docLoop_webhooks (mediumId : string) (code : FeedConnectionDisabledCode)
    (suf pre : list DiscordWebhookConnection) (d : UserFeed) :
  discordWebhooks (connections d) = pre ++ suf ->
  docLoop mediumId code discordWebhooksKey (map con_id suf) (length pre) d =
  set_connections
    {| discordChannels := discordChannels (connections d);
       discordWebhooks := pre ++ map (disableIfMatching mediumId code) suf |} d.
Proof.
  unfold DiscordChannelConnection, DiscordWebhookConnection in *.
  revert pre d. induction suf as [|c suf IH]; intros pre d Hd.
  - simpl. destruct d as [? ? ? ? ? ? [chs whs]]. simpl in Hd. subst. reflexivity.
  - cbn [map]. rewrite docLoop_cons.
    assert (Hpath : path_disabledCode discordWebhooksKey (length pre) d =
                    con_disabledCode c).
    { unfold path_disabledCode, DiscordChannelConnection, DiscordWebhookConnection.
      rewrite Hd, list_lookup_middle by reflexivity. reflexivity. }
    rewrite Hpath.
    set (d1 := if String.eqb (toHexString (con_id c)) mediumId
                  && not_exists (con_disabledCode c)
               then set_path_disabledCode discordWebhooksKey (length pre) code d
               else d).
    assert (Hd1 : discordWebhooks (connections d1) =
                  (pre ++ [disableIfMatching mediumId code c]) ++ suf).
    { subst d1. unfold disableIfMatching. rewrite <- app_assoc. simpl.
      destruct (_ && _); [|exact Hd].
      simpl. rewrite Hd. apply alter_middle. }
    assert (Hc1 : discordChannels (connections d1) = discordChannels (connections d)).
    { subst d1. destruct (_ && _); reflexivity. }
    assert (Hs1 : forall cs, set_connections cs d1 = set_connections cs d).
    { intros cs. subst d1. destruct (_ && _); reflexivity. }
    replace (S (length pre)) with (length (pre ++ [disableIfMatching mediumId code c]))
      by (rewrite length_app; simpl; lia).
    rewrite (IH _ d1 Hd1), Hc1, Hs1, <- app_assoc. reflexivity.
Qed.

Lemma find_some_first (p : UserFeed -> bool) (docs : list UserFeed) (d : UserFeed) :
  List.find p docs = Some d -> d ∈ docs /\ p d = true.
Proof.
  intros E. apply find_some in E as [Hin Hp]. split; [apply list_elem_of_In, Hin|exact Hp].
Qed.


(** ** Dispatch for a rate *)

Lemma existsb_enabled {T} (l : list (Connection T)) :
  has_first l && elemMatch_enabled l = true <->
  exists c, c ∈ l /\ con_disabledCode c = None.
Proof.
  unfold elemMatch_enabled. split.
  - intros Hb. apply andb_true_iff in Hb as [_ Hb].
    apply existsb_exists in Hb as (c & Hc & Hn).
    exists c. split; [apply list_elem_of_In, Hc|apply not_exists_true, Hn].
  - intros (c & Hc & Hn). apply andb_true_iff. split.
    + destruct l; [inversion Hc|reflexivity].
    + apply existsb_exists. exists c.
      split; [apply list_elem_of_In, Hc|apply not_exists_true, Hn].
Qed.

Lemma rate_is_true (o : option Z) (r : Z) : rate_is o r = true <-> o = Some r.
Proof.
  destruct o as [x|]; simpl; [|split; discriminate].
  rewrite Z.eqb_eq. split; congruence.
Qed.

Lemma getFeedsQuery_spec (rate : Z) (d : UserFeed) :
  getFeedsQuery rate d = true <-> dispatchable rate d.
Proof.
  unfold getFeedsQuery, dispatchable.
  pose proof (existsb_enabled (discordChannels (connections d))) as Hc.
  pose proof (existsb_enabled (discordWebhooks (connections d))) as Hw.
  rewrite andb_true_iff, orb_true_iff, andb_true_iff, rate_is_true, not_exists_true.
  tauto.
Qed.

Lemma elem_of_chunk_loop {A} (turns size : nat) (l piece : list A) (x : A) :
  piece ∈ chunk_loop turns size l -> x ∈ piece -> x ∈ l.
Proof.
  revert l. induction turns as [|turns IH]; intros l Hp Hx; simpl in Hp;
    [inversion Hp|].
  destruct l as [|a l']; [inversion Hp|].
  rewrite <- (take_drop size (a :: l')). apply elem_of_app.
  apply elem_of_cons in Hp as [->|Hp]; [left; exact Hx|].
  right. apply (IH _ Hp Hx).
Qed.

Lemma elem_of_chunk {A} (size : nat) (l piece : list A) (x : A) :
  piece ∈ chunk l size -> x ∈ piece -> x ∈ l.
Proof.
  unfold chunk. destruct size; [intros Hp; inversion Hp|].
  apply elem_of_chunk_loop.
Qed.

Lemma with_handlerCalls_same (w : World) :
  with_handlerCalls (handlerCalls w ++ []) w = w.
Proof. destruct w. unfold with_handlerCalls. simpl. rewrite app_nil_r. reflexivity. Qed.

Lemma Promise_all_recordUrls (pieces : list (list string)) (w : World) :
  Promise_all (map recordUrls pieces) w =
  (Returned (map (fun _ => tt) pieces),
   with_handlerCalls (handlerCalls w ++ map UrlsHandlerCall pieces) w).
Proof.
  revert w. induction pieces as [|p pieces IH]; intros w.
  - simpl. rewrite with_handlerCalls_same. reflexivity.
  - cbn [map Promise_all]. unfold recordUrls at 1. rewrite IH.
    cbn [handlerCalls with_handlerCalls]. rewrite <- app_assoc. reflexivity.
Qed.

Lemma for_of_recordFeed (limit : UserFeed -> Z) (feeds : list UserFeed) (w : World) :
  for_of feeds (fun feed => recordFeed feed (limit feed)) w =
  (Returned tt,
   with_handlerCalls
     (handlerCalls w ++ map (fun feed => FeedHandlerCall feed (limit feed)) feeds) w).
Proof.
  revert w. induction feeds as [|f feeds IH]; intros w.
  - simpl. rewrite with_handlerCalls_same. reflexivity.
  - cbn [map for_of]. unfold bind, recordFeed at 1. rewrite IH.
    cbn [handlerCalls with_handlerCalls]. rewrite <- app_assoc. reflexivity.
Qed.

Lemma syncPartitions_handlerCalls (m : RateMap) (acc : list string) (w : World) :
  handlerCalls (snd (syncPartitions m acc w)) = handlerCalls w.
Proof.
  revert acc w. induction m as [|[rate ids] m IH]; intros acc w; [reflexivity|].
  rewrite syncPartitions_cons, IH. reflexivity.
Qed.

Lemma syncRefreshRates_handlerCalls (w : World) :
  handlerCalls (exec syncRefreshRates w) = handlerCalls w.
Proof.
  unfold exec. rewrite syncRefreshRates_run. simpl. apply syncPartitions_handlerCalls.
Qed.

(** The limit a dispatch pass resolves for a feed. *)
Lemma handleRefreshRate_run (r : Z) (w : World) :
  let w1 := exec syncRefreshRates w in
  let candidates := List.filter (getFeedsQuery r) (userFeedModel w1) in
  let urls := remove_dups (map url candidates) in
  let limits := dailyLimitsByDiscordUserId (benefitsOfAllDiscordUsers w1) in
  exists w',
    handleRefreshRate r recordUrls recordFeed w = (Returned tt, w')
    /\ userFeedModel w' = userFeedModel w1
    /\ handlerCalls w' =
       handlerCalls w ++
       (map UrlsHandlerCall (chunk urls 25) ++
        map (fun feed =>
               FeedHandlerCall feed
                 (num_or (limits !! discordUserId (user feed)) maxDailyArticlesDefault))
            candidates).
Proof.
  intros w1 candidates urls limits.
  assert (Esync : syncRefreshRates w = (Returned tt, w1)).
  { subst w1. unfold exec. rewrite syncRefreshRates_run. reflexivity. }
  eexists. split.
  - unfold handleRefreshRate.
    rewrite (bind_returned _ _ _ _ _ Esync).
    unfold bind at 1. unfold getBenefitsOfAllDiscordUsers. cbv beta iota.
    unfold bind at 1. unfold getUrlsMatchingRefreshRate, bind at 1, find, ret.
    cbv beta iota.
    unfold bind at 1. unfold logger_debug. cbv beta iota.
    unfold bind at 1. rewrite Promise_all_recordUrls.
    unfold bind at 1. unfold getFeedCursorMatchingRefreshRate, find.
    cbv beta iota.
    rewrite (for_of_recordFeed
               (fun feed => num_or (dailyLimitsByDiscordUserId
                                      (benefitsOfAllDiscordUsers w1)
                                    !! discordUserId (user feed))
                              maxDailyArticlesDefault)).
    reflexivity.
  - cbn [userFeedModel handlerCalls with_handlerCalls with_logger].
    split; [reflexivity|].
    rewrite <- app_assoc. f_equal. subst w1. apply syncRefreshRates_handlerCalls.
Qed.

(** C3.  A dispatch pass for rate [r], run with callbacks that record
    their calls, returns, and every call it makes is about a dispatchable
    feed of the collection as the synchronisation left it: a feed handed
    to [feedHandler] is at rate [r], carries no disablement code and has a
    destination of some kind without a disablement code; a URL in a
    fetch batch is the URL of such a feed.  So a disabled feed, or one
    whose every destination is disabled, is never handed out, and a URL
    found only on such feeds is in no batch.  Every dispatchable feed is
    handed out. *)
Theorem dispatch_hands_out_only_dispatchable_feeds (r : Z) (w : World) :
  let w' := exec (handleRefreshRate r recordUrls recordFeed) w in
  outcome (handleRefreshRate r recordUrls recordFeed) w = Returned tt
  /\ exists calls,
      handlerCalls w' = handlerCalls w ++ calls
      /\ (forall feed m, FeedHandlerCall feed m ∈ calls ->
            feed ∈ userFeedModel w' /\ dispatchable r feed)
      /\ (forall data u, UrlsHandlerCall data ∈ calls -> u ∈ data ->
            exists feed, feed ∈ userFeedModel w' /\ url feed = u /\ dispatchable r feed)
      /\ (forall feed, feed ∈ userFeedModel w' -> dispatchable r feed ->
            exists m, FeedHandlerCall feed m ∈ calls).
Proof.
  intros w'. subst w'. unfold exec, outcome.
  destruct (handleRefreshRate_run r w) as (w' & Erun & Estore & Ecalls).
  rewrite Erun. cbn [fst snd]. split; [reflexivity|].
  eexists. split; [exact Ecalls|]. rewrite Estore.
  set (docs := userFeedModel (exec syncRefreshRates w)).
  assert (Hcand : forall feed, feed ∈ List.filter (getFeedsQuery r) docs <->
                               feed ∈ docs /\ dispatchable r feed).
  { intros feed. rewrite <- getFeedsQuery_spec, !list_elem_of_In. apply filter_In. }
  split; [|split].
  - intros feed m Hin. apply elem_of_app in Hin as [Hin|Hin].
    + apply list_elem_of_fmap in Hin as (p & Hp & _). discriminate.
    + apply list_elem_of_fmap in Hin as (f & Hf & Hin). inversion Hf; subst.
      apply Hcand, Hin.
  - intros data u Hin Hu. apply elem_of_app in Hin as [Hin|Hin].
    + apply list_elem_of_fmap in Hin as (p & Hp & Hin). inversion Hp; subst.
      pose proof (elem_of_chunk _ _ _ _ Hin Hu) as Hurl.
      apply elem_of_remove_dups, list_elem_of_fmap in Hurl as (f & -> & Hf).
      exists f. apply Hcand in Hf as [Hf Hdisp]. auto.
    + apply list_elem_of_fmap in Hin as (f & Hf & _). discriminate.
  - intros feed Hin Hdisp. eexists. apply elem_of_app. right.
    apply list_elem_of_fmap. exists feed. split; [reflexivity|].
    apply Hcand. auto.
Qed.

(** *** The daily limit handed to [feedHandler] *)

Lemma new_Map_lookup_other (entries : list (string * Z)) (m0 : gmap string Z)
    (k : string) :
  k ∉ map fst entries ->
  fold_left (fun m kv => <[kv.1 := kv.2]> m) entries m0 !! k = m0 !! k.
Proof.
  revert m0. induction entries as [|[k1 v1] entries IH]; intros m0 Hk; simpl;
    [reflexivity|].
  simpl in Hk. apply not_elem_of_cons in Hk as [Hne Hk].
  rewrite (IH _ Hk). apply lookup_insert_ne. congruence.
Qed.

Lemma new_Map_lookup_unique (entries : list (string * Z)) (m0 : gmap string Z)
    (k : string) (v : Z) :
  NoDup (map fst entries) -> (k, v) ∈ entries ->
  fold_left (fun m kv => <[kv.1 := kv.2]> m) entries m0 !! k = Some v.
Proof.
  revert m0. induction entries as [|[k1 v1] entries IH]; intros m0 Hnd Hin; simpl;
    [inversion Hin|].
  simpl in Hnd. apply NoDup_cons in Hnd as [Hnotin Hnd].
  apply elem_of_cons in Hin as [E|Hin].
  - inversion E; subst. rewrite (new_Map_lookup_other _ _ _ Hnotin).
    apply lookup_insert_eq.
  - apply IH; assumption.
Qed.

Lemma dailyLimits_of_benefit (benefits : list Benefit) (b : Benefit) :
  NoDup (map b_discordUserId benefits) -> b ∈ benefits ->
  dailyLimitsByDiscordUserId benefits !! b_discordUserId b =
  Some (b_maxDailyArticles b).
Proof.
  intros Hnd Hb. unfold dailyLimitsByDiscordUserId, new_Map.
  apply new_Map_lookup_unique.
  - rewrite map_map. exact Hnd.
  - apply list_elem_of_fmap. exists b. split; [reflexivity|exact Hb].
Qed.

Lemma dailyLimits_without_benefit (benefits : list Benefit) (u : string) :
  (forall b, b ∈ benefits -> b_discordUserId b <> u) ->
  dailyLimitsByDiscordUserId benefits !! u = None.
Proof.
  intros Hno. unfold dailyLimitsByDiscordUserId, new_Map.
  rewrite new_Map_lookup_other; [apply lookup_empty|].
  rewrite map_map. intros Hin.
  apply list_elem_of_fmap in Hin as (b & Hu & Hb). exact (Hno b Hb (eq_sym Hu)).
Qed.

(** C8, as the service has it.  Let every account have at most one
    benefit record.  The limit a dispatch pass hands to [feedHandler] with
    a feed is the max-daily-articles entitlement of the feed's owner when
    the owner has a benefit record whose entitlement is not zero, and the
    system default when the owner has no benefit record. *)
Theorem dispatch_limit_is_nonzero_entitlement_or_default
    (r : Z) (w : World) (calls : list HandlerCall) (feed : UserFeed) (m : Z) :
  NoDup (map b_discordUserId (benefitsOfAllDiscordUsers w)) ->
  handlerCalls (exec (handleRefreshRate r recordUrls recordFeed) w) =
  handlerCalls w ++ calls ->
  FeedHandlerCall feed m ∈ calls ->
  (forall b, b ∈ benefitsOfAllDiscordUsers w ->
             b_discordUserId b = discordUserId (user feed) ->
             b_maxDailyArticles b <> 0%Z ->
             m = b_maxDailyArticles b)
  /\ ((forall b, b ∈ benefitsOfAllDiscordUsers w ->
                 b_discordUserId b <> discordUserId (user feed)) ->
      m = maxDailyArticlesDefault).
Proof.
  intros Hnd Hcalls Hin. unfold exec in Hcalls.
  destruct (handleRefreshRate_run r w) as (w' & Erun & _ & Ecalls).
  rewrite Erun in Hcalls. cbn [snd] in Hcalls. rewrite Ecalls in Hcalls.
  apply app_inv_head in Hcalls. subst calls.
  rewrite syncRefreshRates_benefits in Hin.
  apply elem_of_app in Hin as [Hin|Hin].
  { apply list_elem_of_fmap in Hin as (p & Hp & _). discriminate. }
  apply list_elem_of_fmap in Hin as (f & Hf & _). inversion Hf; subst. clear Hf.
  split.
  - intros b Hb Hu Hnz. rewrite <- Hu, (dailyLimits_of_benefit _ b Hnd Hb).
    unfold num_or, truthy. apply Z.eqb_neq in Hnz. rewrite Hnz. reflexivity.
  - intros Hno. rewrite (dailyLimits_without_benefit _ _ Hno). reflexivity.
Qed.

(** * Further properties of the service *)

(** ** The batches of a dispatch pass *)

Lemma chunk_loop_concat {A} (turns size : nat) (l : list A) :
  (0 < size)%nat -> (length l <= turns)%nat ->
  concat (chunk_loop turns size l) = l.
Proof.
  intros Hsize. revert l. induction turns as [|turns IH]; intros l Hlen.
  - destruct l; [reflexivity|simpl in Hlen; lia].
  - destruct l as [|a l']; [reflexivity|].
    cbn [chunk_loop concat]. rewrite IH.
    + apply take_drop.
    + rewrite length_drop. simpl in *. lia.
Qed.

Lemma chunk_loop_sizes {A} (turns size : nat) (l : list A) :
  (0 < size)%nat ->
  Forall (fun piece => (1 <= length piece <= size)%nat) (chunk_loop turns size l).
Proof.
  intros Hsize. revert l. induction turns as [|turns IH]; intros l; [constructor|].
  destruct l as [|a l']; [constructor|].
  cbn [chunk_loop]. constructor; [|apply IH].
  rewrite length_take. simpl length. lia.
Qed.

Lemma chunk_loop_full {A} (turns size : nat) (l : list A) (i : nat) (piece : list A) :
  (0 < size)%nat -> (length l <= turns)%nat ->
  chunk_loop turns size l !! i = Some piece ->
  (S i < length (chunk_loop turns size l))%nat ->
  length piece = size.
Proof.
  intros Hsize. revert l i piece.
  induction turns as [|turns IH]; intros l i piece Hlen Hi Hnext.
  - simpl in Hi. discriminate.
  - destruct l as [|a l']; [simpl in Hi; discriminate|].
    cbn [chunk_loop] in Hi, Hnext.
    destruct i as [|i].
    + simpl in Hi. injection Hi as <-.
      destruct (drop size (a :: l')) as [|b rest] eqn:Edrop.
      * exfalso. destruct turns; simpl in Hnext; lia.
      * assert (Hd : (length (drop size (a :: l')) > 0)%nat)
          by (rewrite Edrop; simpl; lia).
        rewrite length_drop in Hd. rewrite length_take. lia.
    + simpl in Hi. apply (IH (drop size (a :: l')) i piece).
      * rewrite length_drop. simpl in *. lia.
      * exact Hi.
      * simpl in Hnext. lia.
Qed.

Lemma chunk_loop_count {A} (turns size : nat) (l : list A) :
  (0 < size)%nat -> (length l <= turns)%nat ->
  (length l <= length (chunk_loop turns size l) * size < length l + size)%nat.
Proof.
  intros Hsize. revert l. induction turns as [|turns IH]; intros l Hlen.
  - destruct l; simpl in *; lia.
  - destruct l as [|a l']; [simpl; lia|].
    cbn [chunk_loop length].
    assert (Hd : (length (drop size (a :: l')) <= turns)%nat)
      by (rewrite length_drop; simpl in *; lia).
    specialize (IH _ Hd). rewrite length_drop in IH. simpl length in *.
    set (k := length (chunk_loop turns size (drop size (a :: l')))) in *.
    set (n := length l') in *.
    destruct (le_lt_dec (S n) size) as [Hle|Hgt].
    + assert (k = 0)%nat by nia. subst k. lia.
    + replace (S k * size)%nat with (k * size + size)%nat by lia. lia.
Qed.

Lemma urlBatches_urls (pieces : list (list string)) :
  urlBatches (map UrlsHandlerCall pieces) = pieces.
Proof.
  unfold urlBatches. induction pieces as [|p pieces IH]; [reflexivity|].
  simpl. unfold omap in IH |- *. simpl. rewrite IH. reflexivity.
Qed.

Lemma urlBatches_feeds (limit : UserFeed -> Z) (feeds : list UserFeed) :
  urlBatches (map (fun feed => FeedHandlerCall feed (limit feed)) feeds) = [].
Proof.
  unfold urlBatches. induction feeds as [|f feeds IH]; [reflexivity|].
  simpl. exact IH.
Qed.

Lemma feedsHandedOut_urls (pieces : list (list string)) :
  feedsHandedOut (map UrlsHandlerCall pieces) = [].
Proof.
  unfold feedsHandedOut. induction pieces as [|p pieces IH]; [reflexivity|].
  simpl. exact IH.
Qed.

Lemma feedsHandedOut_feeds (limit : UserFeed -> Z) (feeds : list UserFeed) :
  feedsHandedOut (map (fun feed => FeedHandlerCall feed (limit feed)) feeds) = feeds.
Proof.
  unfold feedsHandedOut. induction feeds as [|f feeds IH]; [reflexivity|].
  simpl. unfold omap in IH |- *. simpl. rewrite IH. reflexivity.
Qed.

(** The calls of a pass, after the ones recorded before it. *)
Lemma handleRefreshRate_calls (r : Z) (w : World) (calls : list HandlerCall) :
  handlerCalls (exec (handleRefreshRate r recordUrls recordFeed) w) =
  handlerCalls w ++ calls ->
  let w1 := exec syncRefreshRates w in
  let candidates := List.filter (getFeedsQuery r) (userFeedModel w1) in
  calls =
  map UrlsHandlerCall (chunk (remove_dups (map url candidates)) 25) ++
  map (fun feed =>
         FeedHandlerCall feed
           (num_or (dailyLimitsByDiscordUserId (benefitsOfAllDiscordUsers w1)
                    !! discordUserId (user feed)) maxDailyArticlesDefault))
      candidates.
Proof.
  intros Hcalls w1 candidates. unfold exec in Hcalls.
  destruct (handleRefreshRate_run r w) as (w' & Erun & _ & Ecalls).
  rewrite Erun in Hcalls. cbn [snd] in Hcalls. rewrite Ecalls in Hcalls.
  apply app_inv_head in Hcalls. symmetry. exact Hcalls.
Qed.

Lemma handleRefreshRate_store (r : Z) (w : World) :
  userFeedModel (exec (handleRefreshRate r recordUrls recordFeed) w) =
  userFeedModel (exec syncRefreshRates w).
Proof.
  unfold exec at 1. destruct (handleRefreshRate_run r w) as (w' & Erun & Es & _).
  rewrite Erun. exact Es.
Qed.

(** X1.  The batches a dispatch pass hands to [urlsHandler], laid end to
    end, list every URL of a dispatchable feed of the synchronised
    collection exactly once, and nothing else. *)
Theorem dispatch_batches_cover_each_url_once
    (r : Z) (w : World) (calls : list HandlerCall) :
  handlerCalls (exec (handleRefreshRate r recordUrls recordFeed) w) =
  handlerCalls w ++ calls ->
  let w' := exec (handleRefreshRate r recordUrls recordFeed) w in
  NoDup (concat (urlBatches calls))
  /\ forall u, u ∈ concat (urlBatches calls) <->
               exists feed, feed ∈ userFeedModel w' /\ url feed = u
                            /\ dispatchable r feed.
Proof.
  intros Hcalls w'. subst w'. rewrite handleRefreshRate_store.
  rewrite (handleRefreshRate_calls r w calls Hcalls).
  unfold urlBatches. rewrite omap_app. fold (urlBatches (map UrlsHandlerCall
    (chunk (remove_dups (map url (List.filter (getFeedsQuery r)
       (userFeedModel (exec syncRefreshRates w))))) 25))).
  rewrite urlBatches_urls.
  match goal with |- context [omap ?f (map ?g ?l)] =>
    change (omap f (map g l)) with (urlBatches (map g l)) end.
  rewrite urlBatches_feeds, app_nil_r.
  unfold chunk. rewrite chunk_loop_concat by lia.
  split; [apply NoDup_remove_dups|].
  intros u. rewrite elem_of_remove_dups, list_elem_of_fmap. split.
  - intros (feed & -> & Hin). exists feed.
    apply list_elem_of_In, filter_In in Hin as [Hin Hq].
    split; [apply list_elem_of_In, Hin|]. split; [reflexivity|].
    apply getFeedsQuery_spec, Hq.
  - intros (feed & Hin & <- & Hd). exists feed. split; [reflexivity|].
    apply list_elem_of_In, filter_In. split; [apply list_elem_of_In, Hin|].
    apply getFeedsQuery_spec, Hd.
Qed.

(** X2.  A dispatch pass splits the [n] distinct URLs of the feeds it
    selects into [ceil(n / 25)] batches, in order: every batch holds at
    least one and at most 25 URLs, and every batch but the last holds
    exactly 25. *)
Theorem dispatch_batches_are_full_but_the_last
    (r : Z) (w : World) (calls : list HandlerCall) :
  handlerCalls (exec (handleRefreshRate r recordUrls recordFeed) w) =
  handlerCalls w ++ calls ->
  let w' := exec (handleRefreshRate r recordUrls recordFeed) w in
  let urls :=
    remove_dups (map url (List.filter (getFeedsQuery r) (userFeedModel w'))) in
  let batches := urlBatches calls in
  concat batches = urls
  /\ length batches = ((length urls + 24) / 25)%nat
  /\ Forall (fun batch => (1 <= length batch <= 25)%nat) batches
  /\ forall i batch, batches !! i = Some batch -> (S i < length batches)%nat ->
                     length batch = 25%nat.
Proof.
  intros Hcalls w' urls batches. subst batches urls w'.
  rewrite handleRefreshRate_store.
  rewrite (handleRefreshRate_calls r w calls Hcalls).
  set (urls := remove_dups (map url (List.filter (getFeedsQuery r)
                 (userFeedModel (exec syncRefreshRates w))))).
  unfold urlBatches. rewrite omap_app.
  change (omap _ (map UrlsHandlerCall (chunk urls 25)))
    with (urlBatches (map UrlsHandlerCall (chunk urls 25))).
  rewrite urlBatches_urls.
  match goal with |- context [omap ?f (map ?g ?l)] =>
    change (omap f (map g l)) with (urlBatches (map g l)) end.
  rewrite urlBatches_feeds, app_nil_r.
  unfold chunk.
  assert (H25 : (0 < 25)%nat) by lia.
  split; [|split; [|split]].
  - apply (chunk_loop_concat (length urls) 25 urls H25 (le_n _)).
  - pose proof (chunk_loop_count (length urls) 25 urls H25 (le_n _)) as Hc.
    apply (Nat.div_unique _ 25 _
      (length urls + 24 - 25 * length (chunk_loop (length urls) 25 urls))); lia.
  - apply chunk_loop_sizes, H25.
  - intros i batch Hi Hnext.
    apply (chunk_loop_full (length urls) 25 urls i batch H25 (le_n _) Hi Hnext).
Qed.

Lemma split_calls (pieces : list (list string)) (limit : UserFeed -> Z)
    (candidates : list UserFeed) :
  feedsHandedOut (map UrlsHandlerCall pieces ++
                  map (fun feed => FeedHandlerCall feed (limit feed)) candidates)
  = candidates
  /\ urlBatches (map UrlsHandlerCall pieces ++
                 map (fun feed => FeedHandlerCall feed (limit feed)) candidates)
     = pieces.
Proof.
  split.
  - unfold feedsHandedOut. rewrite omap_app.
    change (omap _ (map UrlsHandlerCall pieces))
      with (feedsHandedOut (map UrlsHandlerCall pieces)).
    rewrite feedsHandedOut_urls. apply (feedsHandedOut_feeds limit).
  - unfold urlBatches. rewrite omap_app.
    change (omap _ (map UrlsHandlerCall pieces))
      with (urlBatches (map UrlsHandlerCall pieces)).
    rewrite urlBatches_urls.
    match goal with |- context [omap ?f (map ?g ?l)] =>
      change (omap f (map g l)) with (urlBatches (map g l)) end.
    rewrite (urlBatches_feeds limit), app_nil_r. reflexivity.
Qed.

(** X3.  In a dispatch pass every batch goes to [urlsHandler] before any
    feed goes to [feedHandler], and the feeds handed out are, in order and
    one call each, the feeds of the synchronised collection that the query
    for the rate selects. *)
Theorem dispatch_batches_first_then_each_candidate_once
    (r : Z) (w : World) (calls : list HandlerCall) :
  handlerCalls (exec (handleRefreshRate r recordUrls recordFeed) w) =
  handlerCalls w ++ calls ->
  let w' := exec (handleRefreshRate r recordUrls recordFeed) w in
  feedsHandedOut calls = List.filter (getFeedsQuery r) (userFeedModel w')
  /\ exists limits,
      calls = map UrlsHandlerCall (urlBatches calls) ++
              map (fun fl => FeedHandlerCall fl.1 fl.2) (zip (feedsHandedOut calls) limits)
      /\ length limits = length (feedsHandedOut calls).
Proof.
  intros Hcalls w'. subst w'. rewrite handleRefreshRate_store.
  pose proof (handleRefreshRate_calls r w calls Hcalls) as Ec. cbv zeta in Ec.
  rewrite Ec. clear Ec Hcalls.
  match goal with
  | |- context [map UrlsHandlerCall ?ps ++
                map (fun feed => FeedHandlerCall feed (@?lim feed)) ?cs] =>
      destruct (split_calls ps lim cs) as [Ef Eu];
      cbv beta in Ef, Eu; rewrite Ef, Eu;
      split; [reflexivity|];
      exists (map lim cs); split; [|apply length_map];
      f_equal; clear; induction cs as [|f fs IH]; [reflexivity|];
      simpl; f_equal; exact IH
  end.
Qed.

(** ** Dispatch after a change of entitlement *)

Lemma candidate_is_called (r : Z) (w : World) (calls : list HandlerCall)
    (feed : UserFeed) :
  handlerCalls (exec (handleRefreshRate r recordUrls recordFeed) w) =
  handlerCalls w ++ calls ->
  feed ∈ userFeedModel (exec syncRefreshRates w) ->
  dispatchable r feed ->
  exists m, FeedHandlerCall feed m ∈ calls.
Proof.
  intros Hcalls Hin Hd.
  rewrite (handleRefreshRate_calls r w calls Hcalls).
  eexists. apply elem_of_app. right. apply list_elem_of_fmap.
  exists feed. split; [reflexivity|].
  apply list_elem_of_In, filter_In. split; [apply list_elem_of_In, Hin|].
  apply getFeedsQuery_spec, Hd.
Qed.

(** X4.  Let every account have at most one qualifying benefit record.
    An enabled feed with an enabled destination whose owner holds a
    qualifying benefit of rate [r] is handed out by the dispatch pass for
    [r], with its rate set to [r], whatever rate it was stored at: the
    pass synchronises before it selects. *)
Theorem dispatch_hands_out_feed_at_its_entitled_rate
    (w : World) (i : nat) (d : UserFeed) (b : Benefit) (calls : list HandlerCall) :
  NoDup (map b_discordUserId
           (List.filter b_isSupporter (benefitsOfAllDiscordUsers w))) ->
  userFeedModel w !! i = Some d ->
  disabledCode d = None ->
  ((exists c, c ∈ discordChannels (connections d) /\ con_disabledCode c = None)
   \/ (exists c, c ∈ discordWebhooks (connections d) /\ con_disabledCode c = None)) ->
  b ∈ benefitsOfAllDiscordUsers w ->
  b_isSupporter b = true ->
  b_discordUserId b = discordUserId (user d) ->
  handlerCalls
    (exec (handleRefreshRate (b_refreshRateSeconds b) recordUrls recordFeed) w) =
  handlerCalls w ++ calls ->
  exists m,
    FeedHandlerCall (set_refreshRateSeconds (b_refreshRateSeconds b) d) m ∈ calls.
Proof.
  intros Hnd Hd Hcode Hdest Hb Hs Hu Hcalls.
  apply (candidate_is_called _ w calls _ Hcalls).
  - rewrite syncRefreshRates_store.
    apply list_elem_of_lookup. exists i. rewrite list_lookup_fmap, Hd. simpl.
    f_equal. apply (synchronised_document _ d Hnd); assumption.
  - split; [reflexivity|]. split; [exact Hcode|exact Hdest].
Qed.

(** ** The daily limit when an account has several records *)

Lemma dailyLimits_last (benefits : list Benefit) (u : string) :
  dailyLimitsByDiscordUserId benefits !! u =
  b_maxDailyArticles <$>
    last (List.filter (fun b => String.eqb (b_discordUserId b) u) benefits).
Proof.
  unfold dailyLimitsByDiscordUserId, new_Map.
  induction benefits as [|b benefits IH] using rev_ind; [apply lookup_empty|].
  rewrite map_app, fold_left_app, List.filter_app. simpl.
  destruct (String.eqb (b_discordUserId b) u) eqn:E.
  - apply String.eqb_eq in E. subst u.
    rewrite lookup_insert_eq, last_snoc. reflexivity.
  - apply String.eqb_neq in E.
    rewrite lookup_insert_ne by exact E. rewrite app_nil_r. exact IH.
Qed.

(** X5.  The limit a dispatch pass hands to [feedHandler] with a feed is
    read from the last benefit record of the feed's owner: that record's
    max-daily-articles when it is not zero, and the system default when it
    is zero or when the owner has no record. *)
Theorem dispatch_limit_follows_last_benefit_record
    (r : Z) (w : World) (calls : list HandlerCall) (feed : UserFeed) (m : Z) :
  handlerCalls (exec (handleRefreshRate r recordUrls recordFeed) w) =
  handlerCalls w ++ calls ->
  FeedHandlerCall feed m ∈ calls ->
  m = match last (List.filter
                    (fun b => String.eqb (b_discordUserId b)
                                (discordUserId (user feed)))
                    (benefitsOfAllDiscordUsers w)) with
      | Some b => if (b_maxDailyArticles b =? 0)%Z
                  then maxDailyArticlesDefault
                  else b_maxDailyArticles b
      | None => maxDailyArticlesDefault
      end.
Proof.
  intros Hcalls Hin.
  rewrite (handleRefreshRate_calls r w calls Hcalls) in Hin.
  rewrite syncRefreshRates_benefits in Hin.
  apply elem_of_app in Hin as [Hin|Hin].
  { apply list_elem_of_fmap in Hin as (p & Hp & _). discriminate. }
  apply list_elem_of_fmap in Hin as (f & Hf & _). inversion Hf; subst. clear Hf.
  rewrite dailyLimits_last.
  destruct (last _) as [b|]; [|reflexivity].
  simpl. destruct (b_maxDailyArticles b =? 0)%Z; reflexivity.
Qed.

(** ** Synchronisation without assumptions on the benefit list *)

Lemma in_partition_snoc (m : RateMap) (k : Z) (ids : list string) (r : Z) (u : string) :
  in_partition (m ++ [(k, ids)]) r u <-> in_partition m r u \/ (r = k /\ u ∈ ids).
Proof.
  rewrite in_partition_app, in_partition_cons.
  pose proof (in_partition_nil r u). tauto.
Qed.

Lemma fold_partitionStep_cases (m : RateMap) (d : UserFeed) :
  (exists r, in_partition m r (discordUserId (user d))
             /\ fold_left partitionStep m d = set_refreshRateSeconds r d)
  \/ ((forall r, ~ in_partition m r (discordUserId (user d)))
      /\ fold_left partitionStep m d = d).
Proof.
  induction m as [|[k ids] m IH] using rev_ind.
  - right. split; [intros r; apply in_partition_nil|reflexivity].
  - rewrite fold_left_app. cbn [fold_left].
    assert (Eu : user (fold_left partitionStep m d) = user d).
    { destruct IH as [(r & _ & ->)|[_ ->]]; reflexivity. }
    assert (Estep : partitionStep (fold_left partitionStep m d) (k, ids) =
                    if js_in (discordUserId (user d)) ids
                       && rate_ne (refreshRateSeconds (fold_left partitionStep m d)) k
                    then set_refreshRateSeconds k (fold_left partitionStep m d)
                    else fold_left partitionStep m d).
    { set (x := fold_left partitionStep m d) in *.
      unfold partitionStep. rewrite Eu. reflexivity. }
    rewrite Estep. clear Estep.
    destruct (js_in (discordUserId (user d)) ids) eqn:Hk; simpl.
    + apply js_in_true in Hk. left. exists k. split.
      * apply in_partition_snoc. auto.
      * destruct (rate_ne _ k) eqn:Hne.
        -- destruct IH as [(r & _ & ->)|[_ ->]]; reflexivity.
        -- apply rate_ne_false in Hne.
           rewrite <- (eta_set_refreshRateSeconds _ k Hne).
           destruct IH as [(r & _ & ->)|[_ ->]]; reflexivity.
    + apply js_in_false in Hk.
      destruct IH as [(r & Hr & E)|[Hout E]].
      * left. exists r. split; [apply in_partition_snoc; auto|exact E].
      * right. split; [|exact E].
        intros r Hr. apply in_partition_snoc in Hr as [Hr|[_ Hr]];
          [exact (Hout r Hr)|contradiction].
Qed.

Lemma syncPartitions_bus (m : RateMap) (acc : list string) (w : World) :
  amqpConnection (snd (syncPartitions m acc w)) = amqpConnection w
  /\ logger (snd (syncPartitions m acc w)) = logger w.
Proof.
  revert acc w. induction m as [|[rate ids] m IH]; intros acc w; [split; reflexivity|].
  rewrite syncPartitions_cons.
  destruct (IH (acc ++ ids)
              (snd (updateMany
                      (fun d => js_in (discordUserId (user d)) ids
                                && rate_ne (refreshRateSeconds d) rate)
                      (set_refreshRateSeconds rate) w))) as [-> ->].
  split; reflexivity.
Qed.

Lemma synchronised_document_any_benefits (w : World) (i : nat) (d : UserFeed) :
  userFeedModel w !! i = Some d ->
  let w' := exec syncRefreshRates w in
  amqpConnection w' = amqpConnection w
  /\ logger w' = logger w
  /\ exists r,
      userFeedModel w' !! i = Some (set_refreshRateSeconds r d)
      /\ (r = defaultRefreshRateSeconds
          \/ exists b, b ∈ benefitsOfAllDiscordUsers w
                       /\ b_isSupporter b = true
                       /\ b_discordUserId b = discordUserId (user d)
                       /\ b_refreshRateSeconds b = r).
Proof.
  intros Hd w'. subst w'.
  split; [|split].
  - unfold exec. rewrite syncRefreshRates_run. simpl. apply syncPartitions_bus.
  - unfold exec. rewrite syncRefreshRates_run. simpl. apply syncPartitions_bus.
  - rewrite syncRefreshRates_store, list_lookup_fmap, Hd. simpl.
    set (m := supportersByRefreshRates _).
    destruct (fold_partitionStep_cases m d) as [(r & Hr & ->)|[Hout ->]].
    + exists r. split.
      * f_equal. unfold defaultStep, js_nin. simpl.
        assert (Hsp : js_in (discordUserId (user d)) (concat (map snd m)) = true).
        { apply js_in_true, in_concat_partitions. exists r. exact Hr. }
        rewrite Hsp. reflexivity.
      * right. apply supportersByRefreshRates_spec in Hr
          as (b & Hb & Hs & -> & ->). exists b. auto.
    + exists defaultRefreshRateSeconds. split; [|left; reflexivity].
      f_equal. unfold defaultStep, js_nin.
      assert (Hsp : js_in (discordUserId (user d)) (concat (map snd m)) = false).
      { apply js_in_false. intros Hu. apply in_concat_partitions in Hu as (r & Hr).
        exact (Hout r Hr). }
      rewrite Hsp. simpl.
      destruct (rate_ne (refreshRateSeconds d) defaultRefreshRateSeconds) eqn:Hne;
        [reflexivity|].
      apply rate_ne_false in Hne. symmetry. apply eta_set_refreshRateSeconds, Hne.
Qed.

(** X6.  Whatever the benefit list holds, also several records for one
    account, a synchronisation leaves every field of a feed but the
    refresh rate as it was, and the refresh rate it leaves is the
    process-wide default or the rate of a qualifying benefit of the feed's
    owner; it publishes nothing and logs nothing. *)
Theorem sync_changes_only_the_rate (w : World) (i : nat) (d : UserFeed) :
  userFeedModel w !! i = Some d ->
  let w' := exec syncRefreshRates w in
  amqpConnection w' = amqpConnection w
  /\ logger w' = logger w
  /\ exists r d',
      userFeedModel w' !! i = Some d'
      /\ refreshRateSeconds d' = Some r
      /\ only_rate_changed d d'
      /\ (r = defaultRefreshRateSeconds
          \/ exists b, b ∈ benefitsOfAllDiscordUsers w
                       /\ b_isSupporter b = true
                       /\ b_discordUserId b = discordUserId (user d)
                       /\ b_refreshRateSeconds b = r).
Proof.
  intros Hd w'. subst w'.
  destruct (synchronised_document_any_benefits w i d Hd) as (Hb & Hl & r & Hr & Hwhich).
  split; [exact Hb|]. split; [exact Hl|].
  exists r, (set_refreshRateSeconds r d).
  split; [exact Hr|]. split; [reflexivity|]. split; [repeat split|exact Hwhich].
Qed.

(** ** The partitions of a synchronisation *)

Lemma Map_get_None (k : Z) (m : RateMap) :
  Map_get k m = None <-> k ∉ map fst m.
Proof.
  induction m as [|[k' ids] m IH]; simpl.
  - split; [intros _ Hin; inversion Hin|reflexivity].
  - rewrite not_elem_of_cons. destruct (k' =? k)%Z eqn:E.
    + apply Z.eqb_eq in E. split; [discriminate|]. intros [Hne _]. congruence.
    + apply Z.eqb_neq in E. rewrite IH. split; [intros Hk; split; congruence|tauto].
Qed.

Lemma Map_push_keys (k : Z) (id : string) (m : RateMap) :
  map fst (Map_push k id m) = map fst m.
Proof.
  induction m as [|[k' ids] m IH]; simpl; [reflexivity|].
  destruct (k' =? k)%Z; simpl; [reflexivity|]. rewrite IH. reflexivity.
Qed.

Lemma Map_push_ids (k : Z) (id : string) (m : RateMap) :
  Map_get k m <> None ->
  concat (map snd (Map_push k id m)) ≡ₚ concat (map snd m) ++ [id].
Proof.
  induction m as [|[k' ids] m IH]; simpl; intros Hget; [congruence|].
  destruct (k' =? k)%Z; simpl.
  - rewrite <- !app_assoc. apply Permutation_app_head, Permutation_app_comm.
  - rewrite (IH Hget), app_assoc. reflexivity.
Qed.

Lemma Map_push_nonempty (k : Z) (id : string) (m : RateMap) :
  Forall (fun e => e.2 <> []) m -> Forall (fun e => e.2 <> []) (Map_push k id m).
Proof.
  induction 1 as [|[k' ids] m Hne Hm IH]; simpl; [constructor|].
  destruct (k' =? k)%Z; constructor; auto.
  simpl. intros E. apply app_eq_nil in E as [_ E]. discriminate.
Qed.

Lemma groupSupporter_invariant (m : RateMap) (s : Benefit) :
  NoDup (map fst m) -> Forall (fun e => e.2 <> []) m ->
  NoDup (map fst (groupSupporter m s))
  /\ Forall (fun e => e.2 <> []) (groupSupporter m s)
  /\ concat (map snd (groupSupporter m s)) ≡ₚ concat (map snd m) ++ [b_discordUserId s]
  /\ (forall k, k ∈ map fst (groupSupporter m s) <->
                k ∈ map fst m \/ k = b_refreshRateSeconds s).
Proof.
  intros Hnd Hne. unfold groupSupporter.
  destruct (Map_get (b_refreshRateSeconds s) m) eqn:E.
  - assert (Hk : b_refreshRateSeconds s ∈ map fst m).
    { destruct (decide (b_refreshRateSeconds s ∈ map fst m)) as [Hin|Hout];
        [exact Hin|]. apply Map_get_None in Hout. congruence. }
    rewrite Map_push_keys. split; [exact Hnd|].
    split; [apply Map_push_nonempty, Hne|].
    split; [apply Map_push_ids; congruence|].
    intros k. split; [auto|]. intros [Hin| ->]; assumption.
  - apply Map_get_None in E. rewrite !map_app, concat_app. simpl.
    split; [|split; [|split]].
    + apply NoDup_app. split; [exact Hnd|]. split; [|apply NoDup_singleton].
      intros x Hx Hx'. apply list_elem_of_singleton in Hx'. subst x. exact (E Hx).
    + apply Forall_app. split; [exact Hne|]. constructor; [discriminate|constructor].
    + reflexivity.
    + intros k. rewrite elem_of_app, list_elem_of_singleton. reflexivity.
Qed.

Lemma fold_groupSupporter_invariant (vs : list Benefit) (m : RateMap) :
  NoDup (map fst m) -> Forall (fun e => e.2 <> []) m ->
  NoDup (map fst (fold_left groupSupporter vs m))
  /\ Forall (fun e => e.2 <> []) (fold_left groupSupporter vs m)
  /\ concat (map snd (fold_left groupSupporter vs m))
     ≡ₚ concat (map snd m) ++ map b_discordUserId vs
  /\ (forall k, k ∈ map fst (fold_left groupSupporter vs m) <->
                k ∈ map fst m \/ k ∈ map b_refreshRateSeconds vs).
Proof.
  revert m. induction vs as [|s vs IH]; intros m Hnd Hne; simpl.
  - split; [exact Hnd|]. split; [exact Hne|]. split; [rewrite app_nil_r; reflexivity|].
    intros k. split; [auto|]. intros [Hk|Hk]; [exact Hk|inversion Hk].
  - destruct (groupSupporter_invariant m s Hnd Hne) as (Hnd1 & Hne1 & Hp1 & Hk1).
    destruct (IH _ Hnd1 Hne1) as (Hnd2 & Hne2 & Hp2 & Hk2).
    split; [exact Hnd2|]. split; [exact Hne2|]. split.
    + rewrite Hp2, Hp1, <- app_assoc. reflexivity.
    + intros k. rewrite Hk2, Hk1, elem_of_cons. split.
      * intros [[Hk|Hk]|Hk]; auto.
      * intros [Hk|[Hk|Hk]]; auto.
Qed.

(** X7.  Grouping the supporters keeps every one of them: the partitions
    carry pairwise distinct rates, none is empty, their members taken
    together are the supporters' account ids with their multiplicities,
    and an account sits under a rate exactly when one of its records
    carries that rate. *)
Theorem supporters_are_partitioned_by_rate (validSupporters : list Benefit) :
  let m := supportersByRefreshRates validSupporters in
  NoDup (map fst m)
  /\ Forall (fun e => e.2 <> []) m
  /\ concat (map snd m) ≡ₚ map b_discordUserId validSupporters
  /\ forall r u, in_partition m r u <->
                 exists b, b ∈ validSupporters /\ r = b_refreshRateSeconds b
                           /\ u = b_discordUserId b.
Proof.
  intros m. subst m. unfold supportersByRefreshRates.
  destruct (fold_groupSupporter_invariant validSupporters [])
    as (Hnd & Hne & Hp & _); [constructor|constructor|].
  split; [exact Hnd|]. split; [exact Hne|]. split; [exact Hp|].
  intros r u. rewrite fold_groupSupporter_spec.
  pose proof (in_partition_nil r u). tauto.
Qed.

Lemma syncPartitions_writes (m : RateMap) (acc : list string) (w : World) :
  exists ws, storeWrites (snd (syncPartitions m acc w)) = storeWrites w ++ ws
             /\ length ws = length m.
Proof.
  revert acc w. induction m as [|[rate ids] m IH]; intros acc w.
  - exists []. simpl. rewrite app_nil_r. split; reflexivity.
  - rewrite syncPartitions_cons.
    destruct (IH (acc ++ ids)
                (snd (updateMany
                        (fun d => js_in (discordUserId (user d)) ids
                                  && rate_ne (refreshRateSeconds d) rate)
                        (set_refreshRateSeconds rate) w))) as (ws & Hws & Hlen).
    eexists (_ :: ws). split.
    + rewrite Hws. simpl. rewrite <- app_assoc. reflexivity.
    + simpl. rewrite Hlen. reflexivity.
Qed.

(** X8.  A synchronisation issues one bulk update for every distinct rate
    among the qualifying benefits, and one more for the default rate,
    however many accounts and feeds there are. *)
Theorem sync_issues_one_update_per_distinct_rate (w : World) :
  exists ws,
    storeWrites (exec syncRefreshRates w) = storeWrites w ++ ws
    /\ length ws =
       S (length (remove_dups
                    (map b_refreshRateSeconds
                       (List.filter b_isSupporter (benefitsOfAllDiscordUsers w))))).
Proof.
  unfold exec. rewrite syncRefreshRates_run. simpl.
  set (vs := List.filter b_isSupporter (benefitsOfAllDiscordUsers w)).
  destruct (syncPartitions_writes (supportersByRefreshRates vs) [] w)
    as (ws & Hws & Hlen).
  eexists (ws ++ [_]). split.
  - rewrite Hws, <- app_assoc. reflexivity.
  - rewrite length_app, Hlen. simpl. rewrite Nat.add_1_r. f_equal.
    destruct (fold_groupSupporter_invariant vs [])
      as (Hnd & _ & _ & Hk); [constructor|constructor|].
    fold (supportersByRefreshRates vs) in Hnd, Hk.
    rewrite <- (length_map fst (supportersByRefreshRates vs)).
    apply Permutation_length, NoDup_Permutation;
      [exact Hnd|apply NoDup_remove_dups|].
    intros k. rewrite Hk, elem_of_remove_dups. split; [|auto].
    intros [Hin|Hin]; [inversion Hin|exact Hin].
Qed.

(** ** The outcome handlers, event by event *)

Lemma updateFirst_none (q : FilterQuery) (set : UserFeed -> UserFeed)
    (docs : list UserFeed) :
  (forall d, d ∈ docs -> q d = false) -> updateFirst q set docs = docs.
Proof.
  induction docs as [|d docs IH]; intros Hq; simpl; [reflexivity|].
  rewrite (Hq d (list_elem_of_here _ _)). f_equal. apply IH.
  intros d' Hd'. apply Hq, list_elem_of_further, Hd'.
Qed.

(** X9.  Handling the same fetch-failure event a second time changes
    nothing: the second bulk update matches no feed. *)
Theorem fetch_failure_twice_is_once (u : string) (w : World) :
  let w1 := exec (handleUrlRequestFailureEvent u) w in
  let w2 := exec (handleUrlRequestFailureEvent u) w1 in
  userFeedModel w2 = userFeedModel w1
  /\ storeWrites w2 = storeWrites w1 ++ [{| matchedCount := 0 |}].
Proof.
  intros w1 w2. subst w2. unfold exec.
  rewrite (handleUrlRequestFailureEvent_run u w1). cbn [snd].
  set (q := fun d => String.eqb (url d) u && not_exists (disabledCode d)).
  assert (Hnone : forall d1, d1 ∈ userFeedModel w1 -> q d1 = false).
  { intros d1 Hd1. subst w1. unfold exec in Hd1.
    rewrite handleUrlRequestFailureEvent_run in Hd1. simpl in Hd1.
    apply list_elem_of_fmap in Hd1 as (d & -> & _). fold (q d).
    destruct (q d) eqn:E; [|exact E].
    unfold q. simpl. apply andb_false_r. }
  cbv zeta.
  cbn [userFeedModel storeWrites with_storeWrites with_userFeedModel with_logger].
  fold q. rewrite (updateAll_none q _ _ Hnone), (count_matching_none q _ Hnone).
  split; reflexivity.
Qed.

Lemma findById_run (feedId : string) (w : World) :
  findById feedId w =
  (Returned (List.find (fun d => String.eqb (toHexString (_id d)) feedId)
               (userFeedModel w)), w).
Proof. reflexivity. Qed.

Lemma find_by_id_unique (docs : list UserFeed) (feedId : string) (d : UserFeed) :
  NoDup (map _id docs) -> d ∈ docs -> toHexString (_id d) = feedId ->
  List.find (fun d0 => String.eqb (toHexString (_id d0)) feedId) docs = Some d.
Proof.
  intros Hnd Hin Hid.
  destruct (List.find _ docs) as [found|] eqn:E.
  - apply find_some_first in E as [Hf Hfid]. apply String.eqb_eq in Hfid.
    f_equal. apply (NoDup_map_elem_inj _id _ _ _ Hnd); [exact Hf|exact Hin|].
    unfold toHexString in *. congruence.
  - pose proof (proj1 (find_none_iff _ _) E d Hin) as Hno. simpl in Hno.
    apply String.eqb_neq in Hno. contradiction.
Qed.

Lemma feed_rejection_document
    (rejectedCode : FeedRejectCode) (feedId : string)
    (code : UserFeedDisabledCode) (w : World) (i : nat) (d : UserFeed) :
  NoDup (map _id (userFeedModel w)) ->
  getUserFeedDisableCodeByFeedRejectCode rejectedCode = Some code ->
  userFeedModel w !! i = Some d ->
  let w' := exec (handleFeedRejectedDisableFeed rejectedCode feedId) w in
  outcome (handleFeedRejectedDisableFeed rejectedCode feedId) w = Returned tt
  /\ amqpConnection w' = amqpConnection w
  /\ (toHexString (_id d) = feedId -> disabledCode d = None ->
      userFeedModel w' !! i = Some (set_disabledCode code d)
      /\ storeWrites w' = storeWrites w ++ [{| matchedCount := 1 |}])
  /\ (toHexString (_id d) <> feedId -> userFeedModel w' !! i = Some d)
  /\ (disabledCode d <> None -> userFeedModel w' !! i = Some d).
Proof.
  intros Hnd Hcode Hd w'. subst w'. unfold exec, outcome.
  set (q := fun d0 => String.eqb (toHexString (_id d0)) feedId
                      && not_exists (disabledCode d0)).
  destruct (List.find (fun d0 => String.eqb (toHexString (_id d0)) feedId)
              (userFeedModel w)) as [found|] eqn:Efind.
  - assert (Erun : handleFeedRejectedDisableFeed rejectedCode feedId w =
                   (Returned tt, snd (updateOne q (set_disabledCode code) w))).
    { unfold handleFeedRejectedDisableFeed, bind. rewrite findById_run, Efind, Hcode.
      reflexivity. }
    rewrite Erun. cbn [fst snd]. clear Erun.
    assert (Hq : forall d0, q d0 = true -> toHexString (_id d0) = feedId).
    { intros d0 Hq0. apply andb_true_iff in Hq0 as [Hq0 _].
      apply String.eqb_eq, Hq0. }
    simpl. rewrite (updateFirst_unique q _ _ feedId Hnd Hq).
    rewrite (updateAll_lookup q _ _ _ _ Hd).
    split; [reflexivity|]. split; [reflexivity|]. split; [|split].
    + intros Hid Hnone. unfold q at 1.
      rewrite (proj2 (String.eqb_eq _ _) Hid), Hnone. simpl.
      split; [reflexivity|]. do 2 f_equal.
      apply list_elem_of_lookup_2 in Hd.
      assert (Hone : forall docs, NoDup (map _id docs) -> d ∈ docs ->
                                  count_matching q docs = 1%nat).
      { clear -Hid Hnone Hq. intros docs. unfold count_matching.
        induction docs as [|x docs IH]; intros Hnd Hin; [inversion Hin|].
        simpl in Hnd. apply NoDup_cons in Hnd as [Hx Hnd]. simpl.
        apply elem_of_cons in Hin as [<-|Hin].
        - assert (Hqd : q d = true).
          { unfold q. rewrite (proj2 (String.eqb_eq _ _) Hid), Hnone. reflexivity. }
          rewrite Hqd. simpl. f_equal.
          apply (count_matching_none q). intros d' Hd'.
          destruct (q d') eqn:E; [|reflexivity]. exfalso. apply Hx.
          assert (_id d = _id d') as ->.
          { pose proof (Hq d' E). unfold toHexString in *. congruence. }
          apply list_elem_of_fmap. exists d'. auto.
        - destruct (q x) eqn:E; [|apply IH; assumption].
          exfalso. apply Hx.
          assert (_id x = _id d) as ->.
          { pose proof (Hq x E). unfold toHexString in *. congruence. }
          apply list_elem_of_fmap. exists d. auto. }
      rewrite (Hone _ Hnd Hd). reflexivity.
    + intros Hne. unfold q. rewrite (proj2 (String.eqb_neq _ _) Hne). reflexivity.
    + intros Hc. unfold q. rewrite (proj2 (not_exists_false _) Hc), andb_false_r.
      reflexivity.
  - assert (Erun : handleFeedRejectedDisableFeed rejectedCode feedId w =
                   logger_warn
                     ("No feed with ID " +:+ feedId +:+
                      " was found when attempting to" +:+
                      " handle message from " +:+
                      queueName FeedRejectedDisableFeed) w).
    { unfold handleFeedRejectedDisableFeed, bind. rewrite findById_run, Efind.
      reflexivity. }
    rewrite Erun. unfold logger_warn. cbn [fst snd]. clear Erun.
    split; [reflexivity|]. split; [reflexivity|].
    pose proof (proj1 (find_none_iff _ _) Efind d (list_elem_of_lookup_2 _ _ _ Hd))
      as Hno.
    simpl in Hno. apply String.eqb_neq in Hno.
    split; [intros Hid; contradiction|]. split; intros _; exact Hd.
Qed.

(** X10.  Let identities be unique in the collection and let the reject
    code map to [code].  A feed-rejection event for a stored feed that
    carries no disablement code issues one single update, which matches
    one document: the feed comes out with [code] as its disablement code
    and every other field -- its health status included -- as it was.  A
    feed that already carries a code, like every feed with another
    identity, is exactly as it was, and nothing is published. *)
Theorem feed_rejection_disables_only_the_named_enabled_feed
    (rejectedCode : FeedRejectCode) (feedId : string)
    (code : UserFeedDisabledCode) (w : World) (i : nat) (d : UserFeed) :
  NoDup (map _id (userFeedModel w)) ->
  getUserFeedDisableCodeByFeedRejectCode rejectedCode = Some code ->
  userFeedModel w !! i = Some d ->
  let w' := exec (handleFeedRejectedDisableFeed rejectedCode feedId) w in
  outcome (handleFeedRejectedDisableFeed rejectedCode feedId) w = Returned tt
  /\ amqpConnection w' = amqpConnection w
  /\ (toHexString (_id d) = feedId -> disabledCode d = None ->
      (exists d',
         userFeedModel w' !! i = Some d'
         /\ disabledCode d' = Some code
         /\ only_code_changed d d')
      /\ storeWrites w' = storeWrites w ++ [{| matchedCount := 1 |}])
  /\ (toHexString (_id d) <> feedId -> userFeedModel w' !! i = Some d)
  /\ (disabledCode d <> None -> userFeedModel w' !! i = Some d).
Proof.
  intros Hnd Hcode Hd w'. subst w'.
  destruct (feed_rejection_document rejectedCode feedId code w i d Hnd Hcode Hd)
    as (Ho & Hb & Hset & Hother & Hkept).
  split; [exact Ho|]. split; [exact Hb|]. split; [|split; assumption].
  intros Hid Hnone. destruct (Hset Hid Hnone) as [Hl Hw].
  split; [|exact Hw].
  exists (set_disabledCode code d).
  split; [exact Hl|]. split; [reflexivity|repeat split].
Qed.

(** X11.  When the feed of a rejection event exists but the reject code
    has no entry in the table, the handler throws before it touches
    anything: for a feed rejection as for a destination rejection the
    world is left exactly as it was. *)
Theorem unmapped_reject_code_throws_before_any_update
    (feedCode : FeedRejectCode) (articleCode : ArticleRejectCode)
    (mediumId feedId : string) (w : World) (d : UserFeed) :
  d ∈ userFeedModel w ->
  toHexString (_id d) = feedId ->
  (getUserFeedDisableCodeByFeedRejectCode feedCode = None ->
   exists reason,
     handleFeedRejectedDisableFeed feedCode feedId w = (Thrown reason, w))
  /\ (getConnectionDisableCodeByArticleRejectCode articleCode = None ->
      exists reason,
        handleRejectedArticleDisableConnection articleCode mediumId feedId w =
        (Thrown reason, w)).
Proof.
  intros Hin Hid.
  destruct (List.find (fun d0 => String.eqb (toHexString (_id d0)) feedId)
              (userFeedModel w)) as [found|] eqn:Efind.
  - split; intros Hnone; eexists.
    + unfold handleFeedRejectedDisableFeed, bind.
      rewrite findById_run, Efind, Hnone. reflexivity.
    + unfold handleRejectedArticleDisableConnection, bind.
      rewrite findById_run, Efind, Hnone. reflexivity.
  - pose proof (proj1 (find_none_iff _ _) Efind d Hin) as Hno. simpl in Hno.
    apply String.eqb_neq in Hno. contradiction.
Qed.

(** X12.  A destination-rejection event whose feed id -- the canonical
    hex of an [ObjectId] -- is the [_id] of no stored feed returns
    normally, whatever its reject code: it logs one warning, issues no
    store update, leaves the collection as it was and publishes
    nothing. *)
Theorem destination_rejection_for_missing_feed_is_noop
    (rejectedCode : ArticleRejectCode) (mediumId feedId : string) (w : World) :
  isObjectIdHex feedId = true ->
  (forall d, d ∈ userFeedModel w -> toHexString (_id d) <> feedId) ->
  let w' :=
    exec (handleRejectedArticleDisableConnection rejectedCode mediumId feedId) w in
  outcome (handleRejectedArticleDisableConnection rejectedCode mediumId feedId) w
  = Returned tt
  /\ userFeedModel w' = userFeedModel w
  /\ storeWrites w' = storeWrites w
  /\ amqpConnection w' = amqpConnection w
  /\ exists msg, logger w' = logger w ++ [LogWarn msg].
Proof.
  intros _ Hmiss w'. subst w'. unfold exec, outcome.
  assert (Efind : List.find (fun d0 => String.eqb (toHexString (_id d0)) feedId)
                    (userFeedModel w) = None).
  { apply find_none_iff. intros d Hd. apply String.eqb_neq, Hmiss, Hd. }
  unfold handleRejectedArticleDisableConnection, bind.
  rewrite findById_run, Efind. simpl.
  repeat split. eexists. reflexivity.
Qed.

(** ** Destination rejections: what they write and what follows *)

Lemma article_rejection_found (rejectedCode : ArticleRejectCode)
    (mediumId feedId : string) (code : FeedConnectionDisabledCode)
    (found : UserFeed) (w : World) :
  List.find (fun d0 => String.eqb (toHexString (_id d0)) feedId) (userFeedModel w)
  = Some found ->
  getConnectionDisableCodeByArticleRejectCode rejectedCode = Some code ->
  handleRejectedArticleDisableConnection rejectedCode mediumId feedId w =
  (Returned tt,
   snd (disableMatchingFrom feedId mediumId code discordWebhooksKey
          (map con_id (discordWebhooks (connections found))) 0
          (snd (disableMatchingFrom feedId mediumId code discordChannelsKey
                  (map con_id (discordChannels (connections found))) 0 w)))).
Proof.
  intros Efind Hcode.
  unfold handleRejectedArticleDisableConnection, bind.
  rewrite findById_run, Efind, Hcode. apply connection_loops_run.
Qed.

Lemma docLoop_both (mediumId : string) (code : FeedConnectionDisabledCode)
    (d : UserFeed) :
  docLoop mediumId code discordWebhooksKey
    (map con_id (discordWebhooks (connections d))) 0
    (docLoop mediumId code discordChannelsKey
       (map con_id (discordChannels (connections d))) 0 d)
  = withDestinationRejected mediumId code d.
Proof.
  pose proof (docLoop_channels mediumId code
                (discordChannels (connections d)) [] d eq_refl) as Ec.
  cbn [length app] in Ec. rewrite Ec. clear Ec.
  pose proof (docLoop_webhooks mediumId code
                (discordWebhooks (connections d)) []
                (set_connections
                   {| discordChannels :=
                        map (disableIfMatching mediumId code)
                            (discordChannels (connections d));
                      discordWebhooks := discordWebhooks (connections d) |}
                   d) eq_refl) as Ew.
  cbn [length app] in Ew. rewrite Ew. reflexivity.
Qed.

Lemma article_rejection_store (rejectedCode : ArticleRejectCode)
    (mediumId feedId : string) (code : FeedConnectionDisabledCode) (w : World) :
  NoDup (map _id (userFeedModel w)) ->
  getConnectionDisableCodeByArticleRejectCode rejectedCode = Some code ->
  userFeedModel
    (exec (handleRejectedArticleDisableConnection rejectedCode mediumId feedId) w) =
  map (fun d => if String.eqb (toHexString (_id d)) feedId
                then withDestinationRejected mediumId code d else d)
      (userFeedModel w).
Proof.
  intros Hnd Hcode. unfold exec.
  destruct (List.find (fun d0 => String.eqb (toHexString (_id d0)) feedId)
              (userFeedModel w)) as [found|] eqn:Efind.
  - rewrite (article_rejection_found _ _ _ _ _ _ Efind Hcode). cbn [snd].
    set (ch := map con_id (discordChannels (connections found))).
    set (wh := map con_id (discordWebhooks (connections found))).
    pose proof (disableMatchingFrom_store feedId mediumId code discordChannelsKey
                  ch 0 w Hnd) as E1.
    set (w1 := snd (disableMatchingFrom feedId mediumId code discordChannelsKey ch 0 w))
      in *.
    assert (Hnd1 : NoDup (map _id (userFeedModel w1))).
    { rewrite E1, map_map. erewrite map_ext; [exact Hnd|].
      intros x. simpl.
      destruct (String.eqb (toHexString (_id x)) feedId);
        [apply docLoop_id|reflexivity]. }
    rewrite (disableMatchingFrom_store feedId mediumId code discordWebhooksKey
               wh 0 w1 Hnd1), E1, map_map.
    apply find_some_first in Efind as [Hfound Hfid].
    apply map_ext_in. intros d Hd. simpl.
    destruct (String.eqb (toHexString (_id d)) feedId) eqn:Hb.
    + rewrite docLoop_id, Hb.
      assert (d = found) as ->.
      { apply (NoDup_map_elem_inj _id _ _ _ Hnd);
          [apply list_elem_of_In, Hd|exact Hfound|].
        apply String.eqb_eq in Hfid, Hb. unfold toHexString in *. congruence. }
      subst ch wh. apply docLoop_both.
    + rewrite Hb. reflexivity.
  - assert (Erun :
      handleRejectedArticleDisableConnection rejectedCode mediumId feedId w =
      logger_warn
        ("No feed with ID " +:+ feedId +:+ " was found when attempting to" +:+
         " handle message from " +:+
         queueName FeedRejectedArticleDisableConnection) w).
    { unfold handleRejectedArticleDisableConnection, bind.
      rewrite findById_run, Efind. reflexivity. }
    rewrite Erun. unfold logger_warn. cbn [snd userFeedModel with_logger].
    symmetry. erewrite map_ext_in; [apply map_id|].
    intros d Hd. simpl.
    rewrite (proj1 (find_none_iff _ _) Efind d (proj2 (list_elem_of_In _ _) Hd)).
    reflexivity.
Qed.

Lemma disableIfMatching_code {T} (mediumId : string)
    (code : FeedConnectionDisabledCode) (c : Connection T) :
  toHexString (con_id c) = mediumId ->
  con_disabledCode (disableIfMatching mediumId code c) <> None.
Proof.
  intros Hid. unfold disableIfMatching.
  rewrite (proj2 (String.eqb_eq _ _) Hid). simpl.
  destruct (con_disabledCode c) eqn:E; simpl; [rewrite E|]; discriminate.
Qed.

Lemma disableIfMatching_id {T} (mediumId : string)
    (code : FeedConnectionDisabledCode) (c : Connection T) :
  con_id (disableIfMatching mediumId code c) = con_id c.
Proof. unfold disableIfMatching. destruct (_ && _); reflexivity. Qed.

Lemma disableIfMatching_twice {T} (mediumId : string)
    (code : FeedConnectionDisabledCode) (c : Connection T) :
  disableIfMatching mediumId code (disableIfMatching mediumId code c) =
  disableIfMatching mediumId code c.
Proof.
  unfold disableIfMatching.
  destruct (String.eqb (toHexString (con_id c)) mediumId
            && not_exists (con_disabledCode c)) eqn:E.
  - simpl. rewrite andb_false_r. reflexivity.
  - rewrite E. reflexivity.
Qed.

Lemma withDestinationRejected_twice (mediumId : string)
    (code : FeedConnectionDisabledCode) (d : UserFeed) :
  withDestinationRejected mediumId code (withDestinationRejected mediumId code d) =
  withDestinationRejected mediumId code d.
Proof.
  assert (Hmap : forall T (l : list (Connection T)),
            map (disableIfMatching mediumId code)
                (map (disableIfMatching mediumId code) l) =
            map (disableIfMatching mediumId code) l).
  { intros T l. rewrite map_map. apply map_ext. intros c.
    apply disableIfMatching_twice. }
  unfold withDestinationRejected. simpl. rewrite !Hmap. reflexivity.
Qed.

(** X13.  Let identities be unique in the collection and let the reject
    code map to a disablement code.  Handling the same destination-rejection
    event a second time leaves the collection exactly as the first
    handling left it. *)
Theorem destination_rejection_twice_is_once
    (rejectedCode : ArticleRejectCode) (mediumId feedId : string)
    (code : FeedConnectionDisabledCode) (w : World) :
  NoDup (map _id (userFeedModel w)) ->
  getConnectionDisableCodeByArticleRejectCode rejectedCode = Some code ->
  let h := handleRejectedArticleDisableConnection rejectedCode mediumId feedId in
  userFeedModel (exec h (exec h w)) = userFeedModel (exec h w).
Proof.
  intros Hnd Hcode h. subst h.
  pose proof (article_rejection_store rejectedCode mediumId feedId code w Hnd Hcode)
    as E1.
  assert (Hnd1 : NoDup (map _id (userFeedModel
            (exec (handleRejectedArticleDisableConnection rejectedCode mediumId feedId)
               w)))).
  { rewrite E1, map_map. erewrite map_ext; [exact Hnd|].
    intros x. simpl.
    destruct (String.eqb (toHexString (_id x)) feedId); reflexivity. }
  rewrite (article_rejection_store rejectedCode mediumId feedId code _ Hnd1 Hcode).
  rewrite E1, map_map. apply map_ext. intros d. simpl.
  destruct (String.eqb (toHexString (_id d)) feedId) eqn:Hb.
  - change (_id (withDestinationRejected mediumId code d)) with (_id d).
    rewrite Hb. apply withDestinationRejected_twice.
  - rewrite Hb. reflexivity.
Qed.

Lemma disableMatchingFrom_writes (feedId mediumId : string)
    (code : FeedConnectionDisabledCode) (k : ConnectionKey)
    (ids : list ObjectId) (conIdx : nat) (w : World) :
  length (storeWrites
            (snd (disableMatchingFrom feedId mediumId code k ids conIdx w))) =
  (length (storeWrites w)
   + length (List.filter (fun cid => String.eqb (toHexString cid) mediumId) ids))%nat.
Proof.
  revert conIdx w. induction ids as [|cid rest IH]; intros conIdx w.
  - simpl. lia.
  - rewrite disableMatchingFrom_cons, IH. simpl.
    destruct (String.eqb (toHexString cid) mediumId); simpl.
    + rewrite length_app. simpl. lia.
    + lia.
Qed.

Lemma filter_map_length {A B} (f : A -> B) (p : B -> bool) (l : list A) :
  length (List.filter p (map f l)) = length (List.filter (fun a => p (f a)) l).
Proof.
  induction l as [|a l IH]; simpl; [reflexivity|].
  destruct (p (f a)); simpl; rewrite IH; reflexivity.
Qed.

(** X14.  Let identities be unique in the collection and let the reject
    code map to a disablement code.  A destination-rejection event for a
    stored feed issues exactly one targeted update per destination of that
    feed, of either kind, whose identity is the medium id: none at all
    when no destination carries it. *)
Theorem destination_rejection_issues_one_update_per_match
    (rejectedCode : ArticleRejectCode) (mediumId feedId : string)
    (code : FeedConnectionDisabledCode) (w : World) (d : UserFeed) :
  NoDup (map _id (userFeedModel w)) ->
  getConnectionDisableCodeByArticleRejectCode rejectedCode = Some code ->
  d ∈ userFeedModel w ->
  toHexString (_id d) = feedId ->
  length (storeWrites
            (exec (handleRejectedArticleDisableConnection rejectedCode mediumId feedId)
               w)) =
  (length (storeWrites w) + matchingDestinations mediumId d)%nat.
Proof.
  intros Hnd Hcode Hin Hid. unfold exec.
  rewrite (article_rejection_found _ _ _ _ d _
             (find_by_id_unique _ _ _ Hnd Hin Hid) Hcode).
  cbn [snd]. rewrite !disableMatchingFrom_writes, !filter_map_length.
  unfold matchingDestinations. lia.
Qed.

(** X15.  Let identities be unique in the collection and let the reject
    code map to a disablement code.  Once a destination-rejection event
    naming [mediumId] on a feed has been handled, the mediums of that
    feed's delivery events no longer hold a medium of that identity. *)
Theorem rejected_destination_is_left_out_of_deliveries
    (rejectedCode : ArticleRejectCode) (mediumId feedId : string)
    (code : FeedConnectionDisabledCode) (w : World) (d' : UserFeed) :
  NoDup (map _id (userFeedModel w)) ->
  getConnectionDisableCodeByArticleRejectCode rejectedCode = Some code ->
  d' ∈ userFeedModel
         (exec (handleRejectedArticleDisableConnection rejectedCode mediumId feedId)
            w) ->
  toHexString (_id d') = feedId ->
  JStr mediumId ∉ map medium_id (allMediums d').
Proof.
  intros Hnd Hcode Hin Hid Hm.
  rewrite (article_rejection_store _ _ _ _ _ Hnd Hcode) in Hin.
  apply list_elem_of_fmap in Hin as (d & -> & _).
  assert (Hb : String.eqb (toHexString (_id d)) feedId = true).
  { destruct (String.eqb (toHexString (_id d)) feedId) eqn:E; [reflexivity|].
    apply String.eqb_neq in E. contradiction. }
  rewrite Hb in Hm. clear Hid.
  unfold allMediums, withDestinationRejected in Hm. simpl in Hm.
  rewrite map_app, !map_map in Hm.
  apply elem_of_app in Hm as [Hm|Hm];
    apply list_elem_of_fmap in Hm as (c & Hc & Hcin);
    apply list_elem_of_In, filter_In in Hcin as [Hcin Hen];
    apply list_elem_of_In, list_elem_of_fmap in Hcin as (c0 & -> & _);
    injection Hc as Hc; rewrite disableIfMatching_id in Hc;
    apply not_exists_true in Hen;
    exact (disableIfMatching_code mediumId code c0 (eq_sym Hc) Hen).
Qed.

(** ** A failed URL and the next dispatch *)

Lemma defaultStep_keeps (special : list string) (d : UserFeed) :
  url (defaultStep special d) = url d
  /\ disabledCode (defaultStep special d) = disabledCode d
  /\ connections (defaultStep special d) = connections d
  /\ _id (defaultStep special d) = _id d.
Proof. unfold defaultStep. destruct (_ && _); repeat split. Qed.

Lemma fold_partitionStep_keeps (m : RateMap) (d : UserFeed) :
  url (fold_left partitionStep m d) = url d
  /\ disabledCode (fold_left partitionStep m d) = disabledCode d
  /\ connections (fold_left partitionStep m d) = connections d
  /\ _id (fold_left partitionStep m d) = _id d.
Proof.
  destruct (fold_partitionStep_cases m d) as [(r & _ & ->)|[_ ->]]; repeat split.
Qed.

Lemma synchronised_keeps (w : World) (d' : UserFeed) :
  d' ∈ userFeedModel (exec syncRefreshRates w) ->
  exists d, d ∈ userFeedModel w
            /\ url d' = url d /\ disabledCode d' = disabledCode d
            /\ connections d' = connections d /\ _id d' = _id d.
Proof.
  rewrite syncRefreshRates_store. intros Hin.
  apply list_elem_of_fmap in Hin as (d & -> & Hd). exists d. split; [exact Hd|].
  destruct (defaultStep_keeps
              (concat (map snd (supportersByRefreshRates
                 (List.filter b_isSupporter (benefitsOfAllDiscordUsers w)))))
              (fold_left partitionStep (supportersByRefreshRates
                 (List.filter b_isSupporter (benefitsOfAllDiscordUsers w))) d))
    as (-> & -> & -> & ->).
  apply fold_partitionStep_keeps.
Qed.

(** X16.  After a fetch-failure event for [u] has been handled, the next
    dispatch pass, for whatever rate, puts [u] in no batch and hands no
    feed with that URL to [feedHandler]. *)
Theorem failed_url_is_not_dispatched
    (u : string) (r : Z) (w : World) (calls : list HandlerCall) :
  let w1 := exec (handleUrlRequestFailureEvent u) w in
  handlerCalls (exec (handleRefreshRate r recordUrls recordFeed) w1) =
  handlerCalls w1 ++ calls ->
  (forall data, UrlsHandlerCall data ∈ calls -> u ∉ data)
  /\ (forall feed m, FeedHandlerCall feed m ∈ calls -> url feed <> u).
Proof.
  intros w1 Hcalls.
  assert (Hdisabled : forall feed,
            feed ∈ userFeedModel (exec syncRefreshRates w1) -> url feed = u ->
            disabledCode feed <> None).
  { intros feed Hin Hu. apply synchronised_keeps in Hin
      as (d1 & Hd1 & Eu & Ec & _).
    rewrite Ec. rewrite Eu in Hu. clear Eu Ec.
    subst w1. unfold exec in Hd1. rewrite handleUrlRequestFailureEvent_run in Hd1.
    simpl in Hd1. apply list_elem_of_fmap in Hd1 as (d & -> & _).
    destruct (String.eqb (url d) u && not_exists (disabledCode d)) eqn:E.
    - simpl. discriminate.
    - apply andb_false_iff in E as [E|E].
      + apply String.eqb_neq in E. contradiction.
      + apply not_exists_false, E. }
  assert (Hcand : forall feed,
            feed ∈ List.filter (getFeedsQuery r) (userFeedModel (exec syncRefreshRates w1))
            -> url feed <> u).
  { intros feed Hin Hu. apply list_elem_of_In, filter_In in Hin as [Hin Hq].
    apply getFeedsQuery_spec in Hq as (_ & Hnone & _).
    exact (Hdisabled feed (proj2 (list_elem_of_In _ _) Hin) Hu Hnone). }
  rewrite (handleRefreshRate_calls r w1 calls Hcalls). split.
  - intros data Hin Hu. apply elem_of_app in Hin as [Hin|Hin].
    + apply list_elem_of_fmap in Hin as (p & Hp & Hin). inversion Hp; subst.
      pose proof (elem_of_chunk _ _ _ _ Hin Hu) as Hurl.
      apply elem_of_remove_dups, list_elem_of_fmap in Hurl as (f & -> & Hf).
      exact (Hcand f Hf eq_refl).
    + apply list_elem_of_fmap in Hin as (f & Hf & _). discriminate.
  - intros feed m Hin. apply elem_of_app in Hin as [Hin|Hin].
    + apply list_elem_of_fmap in Hin as (p & Hp & _). discriminate.
    + apply list_elem_of_fmap in Hin as (f & Hf & Hin). inversion Hf; subst.
      apply Hcand, Hin.
Qed.

(** ** A dispatch pass driving the service's own emitters *)

Lemma emitUrlRequestBatchEvent_run (r : Z) (data : list string) (w : World) :
  emitUrlRequestBatchEvent r data w =
  (Returned tt,
   with_logger (logger w ++ [LogDebug "successfully emitted url request event"])
     (with_amqpConnection
        (amqpConnection w ++ [urlBatchMessage (Date_now w) r data]) w)).
Proof. reflexivity. Qed.

Lemma emitDeliverFeedArticlesEvent_run (userFeed : UserFeed) (m : Z) (w : World) :
  emitDeliverFeedArticlesEvent userFeed m w =
  (Returned tt,
   with_logger
     (logger w ++ [LogDebug "successfully emitted deliver feed articles event"])
     (with_amqpConnection
        (amqpConnection w ++ [deliverMessage (Date_now w) userFeed m]) w)).
Proof. reflexivity. Qed.

Lemma with_bus_same (w : World) :
  with_logger (logger w ++ []) (with_amqpConnection (amqpConnection w ++ []) w) = w.
Proof.
  destruct w. unfold with_logger, with_amqpConnection. simpl.
  rewrite !app_nil_r. reflexivity.
Qed.

Lemma Promise_all_emit (r : Z) (pieces : list (list string)) (w : World) :
  Promise_all (map (emitUrlRequestBatchEvent r) pieces) w =
  (Returned (map (fun _ => tt) pieces),
   with_logger
     (logger w ++
      map (fun _ => LogDebug "successfully emitted url request event") pieces)
     (with_amqpConnection
        (amqpConnection w ++ map (urlBatchMessage (Date_now w) r) pieces) w)).
Proof.
  revert w. induction pieces as [|p pieces IH]; intros w.
  - simpl. rewrite with_bus_same. reflexivity.
  - cbn [map Promise_all]. rewrite emitUrlRequestBatchEvent_run, IH.
    unfold with_logger, with_amqpConnection. simpl.
    rewrite <- !app_assoc. reflexivity.
Qed.

Lemma for_of_emit (limit : UserFeed -> Z) (feeds : list UserFeed) (w : World) :
  for_of feeds (fun feed => emitDeliverFeedArticlesEvent feed (limit feed)) w =
  (Returned tt,
   with_logger
     (logger w ++
      map (fun _ => LogDebug "successfully emitted deliver feed articles event") feeds)
     (with_amqpConnection
        (amqpConnection w ++
         map (fun feed => deliverMessage (Date_now w) feed (limit feed)) feeds) w)).
Proof.
  revert w. induction feeds as [|f feeds IH]; intros w.
  - simpl. rewrite with_bus_same. reflexivity.
  - cbn [map for_of]. unfold bind. rewrite emitDeliverFeedArticlesEvent_run, IH.
    unfold with_logger, with_amqpConnection. simpl.
    rewrite <- !app_assoc. reflexivity.
Qed.

Lemma syncRefreshRates_bus (w : World) :
  amqpConnection (exec syncRefreshRates w) = amqpConnection w.
Proof.
  unfold exec. rewrite syncRefreshRates_run. simpl. apply syncPartitions_bus.
Qed.

Lemma chunk_25_length {A} (l : list A) :
  length (chunk l 25) = ((length l + 24) / 25)%nat.
Proof.
  unfold chunk.
  assert (H25 : (0 < 25)%nat) by lia.
  pose proof (chunk_loop_count (length l) 25 l H25 (le_n _)) as Hc.
  apply (Nat.div_unique _ 25 _
           (length l + 24 - 25 * length (chunk_loop (length l) 25 l))); lia.
Qed.

Lemma map_const_replicate {A B} (c : B) (l : list A) :
  map (fun _ => c) l = replicate (length l) c.
Proof. induction l as [|a l IH]; simpl; [reflexivity|]. rewrite IH. reflexivity. Qed.

Lemma dispatchWithEmitters_run (r : Z) (w : World) :
  let w1 := exec syncRefreshRates w in
  let candidates := List.filter (getFeedsQuery r) (userFeedModel w1) in
  let urls := remove_dups (map url candidates) in
  let limits := dailyLimitsByDiscordUserId (benefitsOfAllDiscordUsers w1) in
  exists w',
    dispatchWithEmitters r w = (Returned tt, w')
    /\ userFeedModel w' = userFeedModel w1
    /\ amqpConnection w' =
       amqpConnection w ++
       (map (urlBatchMessage (Date_now w1) r) (chunk urls 25) ++
        map (fun feed =>
               deliverMessage (Date_now w1) feed
                 (num_or (limits !! discordUserId (user feed)) maxDailyArticlesDefault))
            candidates).
Proof.
  intros w1 candidates urls limits.
  assert (Esync : syncRefreshRates w = (Returned tt, w1)).
  { subst w1. unfold exec. rewrite syncRefreshRates_run. reflexivity. }
  eexists. split.
  - unfold dispatchWithEmitters, handleRefreshRate.
    rewrite (bind_returned _ _ _ _ _ Esync).
    unfold bind at 1. unfold getBenefitsOfAllDiscordUsers. cbv beta iota.
    unfold bind at 1. unfold getUrlsMatchingRefreshRate, bind at 1, find, ret.
    cbv beta iota.
    unfold bind at 1. unfold logger_debug. cbv beta iota.
    unfold bind at 1. rewrite Promise_all_emit.
    unfold bind at 1. unfold getFeedCursorMatchingRefreshRate, find.
    cbv beta iota.
    rewrite (for_of_emit
               (fun feed => num_or (dailyLimitsByDiscordUserId
                                      (benefitsOfAllDiscordUsers w1)
                                    !! discordUserId (user feed))
                              maxDailyArticlesDefault)).
    reflexivity.
  - cbn [userFeedModel amqpConnection Date_now with_amqpConnection with_logger].
    split; [reflexivity|].
    rewrite <- app_assoc. f_equal. subst w1. apply syncRefreshRates_bus.
Qed.

(** X17.  A dispatch pass whose callbacks are the service's own emitters
    returns, leaves the collection as the synchronisation left it, and
    publishes, in this order: one batch message of expiration [r * 1000]
    for every 25 distinct URLs of the selected feeds, the last batch
    possibly shorter, then one deliver-articles message of expiration
    3 600 000 for every selected feed. *)
Theorem dispatch_with_emitters_publishes_batches_then_deliveries
    (r : Z) (w : World) :
  let w' := exec (dispatchWithEmitters r) w in
  let candidates := List.filter (getFeedsQuery r) (userFeedModel w') in
  outcome (dispatchWithEmitters r) w = Returned tt
  /\ userFeedModel w' = userFeedModel (exec syncRefreshRates w)
  /\ exists msgs,
      amqpConnection w' = amqpConnection w ++ msgs
      /\ map (fun m => (queue m, expiration m)) msgs =
         replicate ((length (remove_dups (map url candidates)) + 24) / 25)
                   (UrlFetchBatch, (r * 1000)%Z)
         ++ replicate (length candidates) (FeedDeliverArticles, 3600000%Z).
Proof.
  intros w' candidates. subst w' candidates. unfold exec, outcome.
  destruct (dispatchWithEmitters_run r w) as (w' & Erun & Estore & Ebus).
  rewrite Erun. cbn [fst snd]. rewrite Estore.
  split; [reflexivity|]. split; [reflexivity|].
  eexists. split; [exact Ebus|].
  rewrite map_app, !map_map.
  cbn [queue expiration urlBatchMessage deliverMessage].
  rewrite !map_const_replicate, chunk_25_length. reflexivity.
Qed.

(** ** Codes under every activity of the service *)

Lemma syncRefreshRates_sticky (w : World) :
  Forall2 feed_sticky (userFeedModel w) (userFeedModel (exec syncRefreshRates w)).
Proof.
  rewrite syncRefreshRates_store.
  induction (userFeedModel w) as [|d docs IH]; simpl; constructor; [|exact IH].
  set (m := supportersByRefreshRates _).
  destruct (defaultStep_keeps (concat (map snd m)) (fold_left partitionStep m d))
    as (_ & Hc & Hk & Hi).
  destruct (fold_partitionStep_keeps m d) as (_ & Hc' & Hk' & Hi').
  unfold feed_sticky. rewrite Hi, Hi', Hc, Hc', Hk, Hk'.
  split; [reflexivity|]. split; [auto|]. split; reflexivity.
Qed.

Lemma dispatchWithEmitters_store (r : Z) (w : World) :
  userFeedModel (exec (dispatchWithEmitters r) w) =
  userFeedModel (exec syncRefreshRates w).
Proof.
  unfold exec at 1. destruct (dispatchWithEmitters_run r w) as (w' & Erun & Es & _).
  rewrite Erun. exact Es.
Qed.

(** X18.  Whatever the service is made to do, in whatever order -- handle
    outcome events, synchronise refresh rates, run dispatch passes with
    its emitters -- every feed stays at its place and a disablement code
    that a feed or a destination carried before is the code it carries
    after. *)
Theorem disablement_codes_survive_every_activity
    (activities : list Activity) (w : World) :
  Forall2 feed_sticky (userFeedModel w) (userFeedModel (performAll activities w)).
Proof.
  revert w. induction activities as [|a activities IH]; intros w; simpl;
    [reflexivity|].
  etransitivity; [|apply IH].
  destruct a as [e| |r]; simpl.
  - apply handleOutcome_sticky.
  - apply syncRefreshRates_sticky.
  - rewrite dispatchWithEmitters_store. apply syncRefreshRates_sticky.
Qed.

(** ** What the outcome handlers leave alone *)

#[local] Instance con_only_code_changed_refl {T} :
  Reflexive (@con_only_code_changed _ T).
Proof. intros c. left. reflexivity. Qed.

#[local] Instance con_only_code_changed_trans {T} :
  Transitive (@con_only_code_changed _ T).
Proof.
  intros a b c [->|(code & ->)] [->|(code' & ->)].
  - left. reflexivity.
  - right. exists code'. reflexivity.
  - right. exists code. reflexivity.
  - right. exists code'. reflexivity.
Qed.

#[local] Instance only_disablement_changed_refl : Reflexive only_disablement_changed.
Proof. intros d. repeat split; reflexivity. Qed.

#[local] Instance only_disablement_changed_trans :
  Transitive only_disablement_changed.
Proof.
  intros a b c (A1 & A2 & A3 & A4 & A5 & A6 & A7 & A8 & A9 & A10)
               (B1 & B2 & B3 & B4 & B5 & B6 & B7 & B8 & B9 & B10).
  repeat split; try congruence; etransitivity; eassumption.
Qed.








End Properties.

(** * The properties on the example deployment *)

Section Examples.
#[local] Existing Instance demo.

Lemma demo_supporters_unique :
  NoDup (map b_discordUserId
           (List.filter b_isSupporter (benefitsOfAllDiscordUsers demoW))).
Proof. refine (bool_decide_unpack _ _). vm_compute. exact I. Defined.

Lemma demo_accounts_unique :
  NoDup (map b_discordUserId (benefitsOfAllDiscordUsers demoW)).
Proof. refine (bool_decide_unpack _ _). vm_compute. exact I. Defined.

Lemma demo_ids_unique : NoDup (map _id (userFeedModel demoW)).
Proof. refine (bool_decide_unpack _ _). vm_compute. exact I. Defined.

(** The supporter's first feed goes from 600 to the entitled 300. *)
Lemma sync_sets_entitled_or_default_rate_witness :
  refreshRateSeconds <$> (userFeedModel (exec syncRefreshRates demoW) !! 0%nat) =
  Some (Some 300%Z).
Proof.
  destruct (sync_sets_entitled_or_default_rate demoW 0 demoF1
              demo_supporters_unique eq_refl) as (_ & _ & d' & Hd' & _ & Hsup & _).
  rewrite Hd'. simpl. f_equal.
  apply (Hsup (demoBenefit "u1" 300 100 true));
    [apply list_elem_of_here|reflexivity|reflexivity].
Defined.

Lemma sync_twice_second_run_writes_nothing_witness :
  userFeedModel (exec syncRefreshRates (exec syncRefreshRates demoW)) =
  userFeedModel (exec syncRefreshRates demoW).
Proof.
  destruct (sync_twice_second_run_writes_nothing demoW demo_supporters_unique)
    as (_ & _ & Hs & _).
  exact Hs.
Defined.

Lemma disablement_codes_survive_replay_witness :
  Forall2 feed_sticky (userFeedModel demoW)
    (userFeedModel
       (replay [ArticleRejected "user-feeds/forbidden" "m1" "f2";
                UrlRequestFailure "http://y";
                FeedRejected "user-feeds/invalid-feed" "f3"] demoW)).
Proof. apply disablement_codes_survive_replay. Defined.

Lemma dispatch_hands_out_only_dispatchable_feeds_witness :
  dispatchable 300 (set_refreshRateSeconds 300 demoF1).
Proof.
  destruct (dispatch_hands_out_only_dispatchable_feeds 300 demoW)
    as (_ & calls & Hcalls & Hfeed & _).
  apply (Hfeed (set_refreshRateSeconds 300 demoF1) 100%Z).
  change (handlerCalls demoW ++ calls) with calls in Hcalls. rewrite <- Hcalls.
  vm_compute. apply list_elem_of_further, list_elem_of_here.
Defined.

Lemma fetch_failure_disables_enabled_feeds_of_url_witness :
  disabledCode
    <$> (userFeedModel (exec (handleUrlRequestFailureEvent "http://x") demoW)
         !! 1%nat) = Some (Some "FAILED_REQUESTS")
  /\ healthStatus
       <$> (userFeedModel (exec (handleUrlRequestFailureEvent "http://x") demoW)
            !! 1%nat) = Some "FAILED".
Proof.
  destruct (fetch_failure_disables_enabled_feeds_of_url "http://x" demoW 1 demoF2
              eq_refl) as (_ & _ & _ & Hset & _).
  destruct (Hset eq_refl eq_refl) as (d' & Hd' & Hcode & Hhealth & _).
  rewrite Hd'. simpl. rewrite Hcode, Hhealth. split; reflexivity.
Defined.


Lemma feed_rejection_for_missing_feed_is_noop_witness :
  userFeedModel
    (exec (handleFeedRejectedDisableFeed "user-feeds/invalid-feed"
             "64b7e1f2a3c4d5e6f7a8b9c0") demoW) =
  userFeedModel demoW.
Proof.
  assert (Hmiss : forall d, d ∈ userFeedModel demoW ->
                            toHexString (_id d) <> "64b7e1f2a3c4d5e6f7a8b9c0").
  { apply Forall_forall. refine (bool_decide_unpack _ _). vm_compute. exact I. }
  destruct (feed_rejection_for_missing_feed_is_noop (H := demo)
              "user-feeds/invalid-feed" "64b7e1f2a3c4d5e6f7a8b9c0" demoW
              eq_refl Hmiss) as (_ & Hs & _).
  exact Hs.
Defined.

(** The supporter's first feed is handed out with the supporter's limit. *)
Lemma dispatch_limit_is_nonzero_entitlement_or_default_witness :
  FeedHandlerCall (set_refreshRateSeconds 300 demoF1) 100%Z
  ∈ handlerCalls (exec (handleRefreshRate 300 recordUrls recordFeed) demoW)
  /\ 100%Z = b_maxDailyArticles (demoBenefit "u1" 300 100 true).
Proof.
  assert (Hin : FeedHandlerCall (set_refreshRateSeconds 300 demoF1) 100%Z
                ∈ handlerCalls
                    (exec (handleRefreshRate 300 recordUrls recordFeed) demoW)).
  { vm_compute. apply list_elem_of_further, list_elem_of_here. }
  split; [exact Hin|].
  destruct (dispatch_limit_is_nonzero_entitlement_or_default 300 demoW
              (handlerCalls (exec (handleRefreshRate 300 recordUrls recordFeed) demoW))
              (set_refreshRateSeconds 300 demoF1) 100%Z
              demo_accounts_unique eq_refl Hin) as [Hent _].
  apply (Hent (demoBenefit "u1" 300 100 true));
    [apply list_elem_of_here|reflexivity|discriminate].
Defined.

Lemma deliver_event_published_once_with_enabled_mediums_witness :
  exists msg mediums,
    amqpConnection (exec (emitDeliverFeedArticlesEvent demoF2 50) demoW) = [msg]
    /\ js_opt_get (js_opt_get (payload msg) "data") "mediums" = JArr mediums
    /\ map medium_id mediums = [JStr "m2"; JStr "m3"; JStr "m4"; JStr "m2"].
Proof.
  destruct (deliver_event_published_once_with_enabled_mediums demoF2 50 demoW)
    as (_ & msg & mediums & Hpub & _ & Hm & _ & Hids & _).
  exists msg, mediums. split; [exact Hpub|]. split; [exact Hm|].
  rewrite Hids. vm_compute. reflexivity.
Defined.

(** C8 does not hold as stated: an account in the benefit list with an
    entitlement of 0 daily articles has its feed dispatched with the
    default, 50. *)
Lemma dispatch_limit_zero_entitlement_counterexample :
  ~ (forall feed m b,
       FeedHandlerCall feed m
       ∈ handlerCalls (exec (handleRefreshRate 600 recordUrls recordFeed) zeroLimitW) ->
       b ∈ benefitsOfAllDiscordUsers zeroLimitW ->
       b_discordUserId b = discordUserId (user feed) ->
       m = b_maxDailyArticles b).
Proof.
  intros Hclaim.
  specialize (Hclaim demoF1 50%Z (demoBenefit "u1" 600 0 true)).
  assert (Hin : FeedHandlerCall demoF1 50%Z
                ∈ handlerCalls
                    (exec (handleRefreshRate 600 recordUrls recordFeed) zeroLimitW)).
  { vm_compute. apply list_elem_of_further, list_elem_of_here. }
  specialize (Hclaim Hin (list_elem_of_here _ _) eq_refl).
  discriminate Hclaim.
Qed.

(** C9 does not hold as stated: the payload carries the rate next to the
    url. *)
Lemma emitUrlRequestEvent_payload_counterexample :
  ~ (exists msg,
       amqpConnection (exec (emitUrlRequestEvent "http://x" 300) demoW) =
       amqpConnection demoW ++ [msg]
       /\ payload msg = JObj [("data", JObj [("url", JStr "http://x")])]
       /\ expiration msg = (300 * 1000)%Z).
Proof.
  intros (msg & Hpub & Hpayload & _).
  vm_compute in Hpub. injection Hpub as <-.
  vm_compute in Hpayload. discriminate Hpayload.
Qed.

(** ** The further properties on the example deployment *)

Lemma dispatch_batches_cover_each_url_once_witness :
  NoDup (concat (urlBatches
                   (handlerCalls
                      (exec (handleRefreshRate 300 recordUrls recordFeed) demoW)))).
Proof.
  exact (proj1 (dispatch_batches_cover_each_url_once 300 demoW
                  (handlerCalls
                     (exec (handleRefreshRate 300 recordUrls recordFeed) demoW))
                  eq_refl)).
Defined.

Lemma dispatch_batches_are_full_but_the_last_witness :
  length (urlBatches
            (handlerCalls
               (exec (handleRefreshRate 300 recordUrls recordFeed) demoW))) = 1%nat.
Proof.
  destruct (dispatch_batches_are_full_but_the_last 300 demoW
              (handlerCalls
                 (exec (handleRefreshRate 300 recordUrls recordFeed) demoW))
              eq_refl) as (_ & Hlen & _).
  rewrite Hlen. vm_compute. reflexivity.
Defined.

Lemma dispatch_batches_first_then_each_candidate_once_witness :
  feedsHandedOut
    (handlerCalls (exec (handleRefreshRate 300 recordUrls recordFeed) demoW)) =
  List.filter (getFeedsQuery 300)
    (userFeedModel (exec (handleRefreshRate 300 recordUrls recordFeed) demoW)).
Proof.
  exact (proj1 (dispatch_batches_first_then_each_candidate_once 300 demoW
                  (handlerCalls
                     (exec (handleRefreshRate 300 recordUrls recordFeed) demoW))
                  eq_refl)).
Defined.

(** The supporter's feed, stored at 600, is handed out by the pass for
    300. *)
Lemma dispatch_hands_out_feed_at_its_entitled_rate_witness :
  exists m,
    FeedHandlerCall (set_refreshRateSeconds 300 demoF1) m
    ∈ handlerCalls (exec (handleRefreshRate 300 recordUrls recordFeed) demoW).
Proof.
  apply (dispatch_hands_out_feed_at_its_entitled_rate demoW 0 demoF1
           (demoBenefit "u1" 300 100 true)
           (handlerCalls (exec (handleRefreshRate 300 recordUrls recordFeed) demoW))
           demo_supporters_unique eq_refl eq_refl).
  - left. exists (demoChannel "m1" None). split; [apply list_elem_of_here|reflexivity].
  - apply list_elem_of_here.
  - reflexivity.
  - reflexivity.
  - reflexivity.
Defined.

Lemma dispatch_limit_follows_last_benefit_record_witness :
  FeedHandlerCall (set_refreshRateSeconds 300 demoF1) 100%Z
  ∈ handlerCalls (exec (handleRefreshRate 300 recordUrls recordFeed) demoW)
  /\ 100%Z =
     match last (List.filter
                   (fun b => String.eqb (b_discordUserId b) "u1")
                   (benefitsOfAllDiscordUsers demoW)) with
     | Some b => if (b_maxDailyArticles b =? 0)%Z
                 then maxDailyArticlesDefault
                 else b_maxDailyArticles b
     | None => maxDailyArticlesDefault
     end.
Proof.
  assert (Hin : FeedHandlerCall (set_refreshRateSeconds 300 demoF1) 100%Z
                ∈ handlerCalls
                    (exec (handleRefreshRate 300 recordUrls recordFeed) demoW)).
  { vm_compute. apply list_elem_of_further, list_elem_of_here. }
  split; [exact Hin|].
  exact (dispatch_limit_follows_last_benefit_record 300 demoW
           (handlerCalls (exec (handleRefreshRate 300 recordUrls recordFeed) demoW))
           (set_refreshRateSeconds 300 demoF1) 100%Z eq_refl Hin).
Defined.

Lemma sync_changes_only_the_rate_witness :
  refreshRateSeconds <$> (userFeedModel (exec syncRefreshRates demoW) !! 2%nat) =
  Some (Some 600%Z).
Proof.
  destruct (sync_changes_only_the_rate demoW 2 demoF3 eq_refl)
    as (_ & _ & r & d' & Hd' & Hr & _ & Hwhich).
  rewrite Hd'. simpl. rewrite Hr. do 2 f_equal.
  destruct Hwhich as [->|(b & Hb & Hs & Hu & _)]; [reflexivity|].
  exfalso.
  apply elem_of_cons in Hb as [->|Hb]; [discriminate Hu|].
  apply elem_of_cons in Hb as [->|Hb]; [discriminate Hs|inversion Hb].
Defined.

Lemma feed_rejection_disables_only_the_named_enabled_feed_witness :
  disabledCode
    <$> (userFeedModel
           (exec (handleFeedRejectedDisableFeed "user-feeds/invalid-feed" "f1")
              demoW) !! 0%nat) = Some (Some "INVALID_FEED").
Proof.
  destruct (feed_rejection_disables_only_the_named_enabled_feed (H := demo)
              "user-feeds/invalid-feed" "f1" "INVALID_FEED" demoW 0 demoF1
              demo_ids_unique eq_refl eq_refl) as (_ & _ & Hset & _).
  destruct (Hset eq_refl eq_refl) as [(d' & Hd' & Hcode & _) _].
  rewrite Hd'. simpl. rewrite Hcode. reflexivity.
Defined.

Lemma unmapped_reject_code_throws_before_any_update_witness :
  exists reason,
    handleFeedRejectedDisableFeed "no-such-code" "f1" demoW = (Thrown reason, demoW).
Proof.
  destruct (unmapped_reject_code_throws_before_any_update (H := demo)
              "no-such-code" "no-such-code" "m1" "f1" demoW demoF1
              (list_elem_of_here _ _) eq_refl) as [Hfeed _].
  exact (Hfeed eq_refl).
Defined.

Lemma destination_rejection_for_missing_feed_is_noop_witness :
  userFeedModel
    (exec (handleRejectedArticleDisableConnection "user-feeds/forbidden" "m1"
             "64b7e1f2a3c4d5e6f7a8b9c0") demoW) = userFeedModel demoW.
Proof.
  assert (Hmiss : forall d, d ∈ userFeedModel demoW ->
                            toHexString (_id d) <> "64b7e1f2a3c4d5e6f7a8b9c0").
  { apply Forall_forall. refine (bool_decide_unpack _ _). vm_compute. exact I. }
  destruct (destination_rejection_for_missing_feed_is_noop (H := demo)
              "user-feeds/forbidden" "m1" "64b7e1f2a3c4d5e6f7a8b9c0" demoW
              eq_refl Hmiss) as (_ & Hs & _).
  exact Hs.
Defined.

Lemma destination_rejection_twice_is_once_witness :
  userFeedModel
    (exec (handleRejectedArticleDisableConnection "user-feeds/forbidden" "m2" "f2")
       (exec (handleRejectedArticleDisableConnection "user-feeds/forbidden" "m2" "f2")
          demoW)) =
  userFeedModel
    (exec (handleRejectedArticleDisableConnection "user-feeds/forbidden" "m2" "f2")
       demoW).
Proof.
  exact (destination_rejection_twice_is_once (H := demo)
           "user-feeds/forbidden" "m2" "f2" "MISSING_PERMISSIONS" demoW
           demo_ids_unique eq_refl).
Defined.

(** ["m2"] names a channel and a webhook of the second feed: two updates. *)
Lemma destination_rejection_issues_one_update_per_match_witness :
  length (storeWrites
            (exec (handleRejectedArticleDisableConnection
                     "user-feeds/forbidden" "m2" "f2") demoW)) = 2%nat.
Proof.
  exact (destination_rejection_issues_one_update_per_match (H := demo)
           "user-feeds/forbidden" "m2" "f2" "MISSING_PERMISSIONS" demoW demoF2
           demo_ids_unique eq_refl
           (list_elem_of_further _ _ _ (list_elem_of_here _ _)) eq_refl).
Defined.

Lemma rejected_destination_is_left_out_of_deliveries_witness :
  JStr "m2"
  ∉ map medium_id
      (allMediums
         (demoFeed "f2" "http://x" "u1" 600 None
            [demoChannel "m1" (Some "MANUAL");
             demoChannel "m2" (Some "MISSING_PERMISSIONS")]
            [demoWebhook "m3" None; demoWebhook "m4" None;
             demoWebhook "m2" (Some "MISSING_PERMISSIONS")])).
Proof.
  apply (rejected_destination_is_left_out_of_deliveries (H := demo)
           "user-feeds/forbidden" "m2" "f2" "MISSING_PERMISSIONS" demoW _
           demo_ids_unique eq_refl).
  - vm_compute. apply list_elem_of_further, list_elem_of_here.
  - reflexivity.
Defined.

Lemma failed_url_is_not_dispatched_witness :
  (forall data,
     UrlsHandlerCall data
     ∈ handlerCalls
         (exec (handleRefreshRate 300 recordUrls recordFeed)
            (exec (handleUrlRequestFailureEvent "http://x") demoW)) ->
     "http://x" ∉ data)
  /\ (forall feed m,
        FeedHandlerCall feed m
        ∈ handlerCalls
            (exec (handleRefreshRate 300 recordUrls recordFeed)
               (exec (handleUrlRequestFailureEvent "http://x") demoW)) ->
        url feed <> "http://x").
Proof.
  exact (failed_url_is_not_dispatched "http://x" 300 demoW
           (handlerCalls
              (exec (handleRefreshRate 300 recordUrls recordFeed)
                 (exec (handleUrlRequestFailureEvent "http://x") demoW)))
           eq_refl).
Defined.

End Examples.
